(** * KeePass native messaging host: framing, routing and session loop

    A shallow embedding of [native-host/python/keepass_host.py] and the
    properties of its frame codec, action router and session loop.

    Layout of the development:
    - [PyText], [Utf8], [Struct]: the Python values the host manipulates
      ([str] as a sequence of code points, [bytes], the [struct] format
      ['=I']);
    - [Json]: the documents exchanged with the browser and the behaviour of
      [json.dumps] / [json.loads] on them;
    - [Host]: the class [KeePassHost], written in a state-and-exception
      monad over the process' streams, its log and the host attributes;
    - the properties, first of the codec, then of the router and the loop.

    Conventions.  Python's [None] is the JSON document [JNull]: it is what
    [json.loads] returns for [null] and what [dict.get] returns by default.
    Interpreter resource limits (memory, recursion depth, the digit limit of
    integer conversion) and asynchronous signals are outside the model. *)

From Stdlib Require Import String Ascii List ZArith NArith Bool Lia.
From Stdlib Require Import Strings.Byte.
From Stdlib Require Import DecimalN DecimalFacts DecimalPos.
Import ListNotations.

Set Implicit Arguments.

(* ------------------------------------------------------------------ *)
(** ** Python text *)

Module PyText.

(** A [str] is a sequence of code points; a well-formed one stays below
    [0x110000]. *)
Definition pystr := list N.

Definition lit (s : string) : pystr :=
  map N_of_ascii (list_ascii_of_string s).

Fixpoint pystr_eqb (a b : pystr) : bool :=
  match a, b with
  | [], [] => true
  | x :: a', y :: b' => N.eqb x y && pystr_eqb a' b'
  | _, _ => false
  end.

Definition codepoint_ok (c : N) : bool := N.ltb c 0x110000.
Definition is_high_surrogate (c : N) : bool := N.leb 0xD800 c && N.leb c 0xDBFF.
Definition is_low_surrogate (c : N) : bool := N.leb 0xDC00 c && N.leb c 0xDFFF.

(** Decimal digits, most significant first. *)
Fixpoint uint_chars (d : Decimal.uint) : pystr :=
  match d with
  | Decimal.Nil => []
  | Decimal.D0 d => 48%N :: uint_chars d
  | Decimal.D1 d => 49%N :: uint_chars d
  | Decimal.D2 d => 50%N :: uint_chars d
  | Decimal.D3 d => 51%N :: uint_chars d
  | Decimal.D4 d => 52%N :: uint_chars d
  | Decimal.D5 d => 53%N :: uint_chars d
  | Decimal.D6 d => 54%N :: uint_chars d
  | Decimal.D7 d => 55%N :: uint_chars d
  | Decimal.D8 d => 56%N :: uint_chars d
  | Decimal.D9 d => 57%N :: uint_chars d
  end.

(** [int.__repr__] *)
Definition repr_int (z : Z) : pystr :=
  match z with
  | Z0 => uint_chars (N.to_uint 0)
  | Zpos p => uint_chars (N.to_uint (Npos p))
  | Zneg p => 45%N :: uint_chars (N.to_uint (Npos p))
  end.

Definition digit_of (c : N) : option (Decimal.uint -> Decimal.uint) :=
  if N.eqb c 48 then Some Decimal.D0 else
  if N.eqb c 49 then Some Decimal.D1 else
  if N.eqb c 50 then Some Decimal.D2 else
  if N.eqb c 51 then Some Decimal.D3 else
  if N.eqb c 52 then Some Decimal.D4 else
  if N.eqb c 53 then Some Decimal.D5 else
  if N.eqb c 54 then Some Decimal.D6 else
  if N.eqb c 55 then Some Decimal.D7 else
  if N.eqb c 56 then Some Decimal.D8 else
  if N.eqb c 57 then Some Decimal.D9 else None.

(** The longest run of [[0-9]] at the head of [s], and what follows. *)
Fixpoint scan_digits (s : pystr) : Decimal.uint * pystr :=
  match s with
  | [] => (Decimal.Nil, [])
  | c :: r =>
      match digit_of c with
      | Some D => let (d, r') := scan_digits r in (D d, r')
      | None => (Decimal.Nil, s)
      end
  end.

(** Lower-case hexadecimal, as produced by the format [{:x}]. *)
Definition hex_char (d : N) : N :=
  if N.ltb d 10 then (48 + d)%N else (87 + d)%N.

Definition hex_value (c : N) : option N :=
  if N.leb 48 c && N.leb c 57 then Some (c - 48)%N
  else if N.leb 97 c && N.leb c 102 then Some (c - 87)%N
  else if N.leb 65 c && N.leb c 70 then Some (c - 55)%N
  else None.

(** ['{0:02x}'], ['{0:04x}'] and ['{0:08x}'] on a number that fits. *)
Definition hex2 (n : N) : pystr :=
  [hex_char (n / 16 mod 16); hex_char (n mod 16)]%N.

Definition hex4 (n : N) : pystr :=
  [hex_char (n / 4096 mod 16); hex_char (n / 256 mod 16);
   hex_char (n / 16 mod 16); hex_char (n mod 16)]%N.

Definition hex8 (n : N) : pystr :=
  (hex4 (n / 65536) ++ hex4 (n mod 65536))%N.

Definition unhex4 (a b c d : N) : option N :=
  match hex_value a, hex_value b, hex_value c, hex_value d with
  | Some x, Some y, Some z, Some w => Some (x * 4096 + y * 256 + z * 16 + w)%N
  | _, _, _, _ => None
  end.

End PyText.
Import PyText.

(* ------------------------------------------------------------------ *)
(** ** UTF-8, as [bytes.decode('utf-8')] and [str.encode('utf-8')] *)

Module Utf8.

Definition bytes := list byte.

Definition byte_of (n : N) : byte :=
  match Byte.of_N n with Some b => b | None => x00 end.

Definition is_cont (b : N) : bool := N.leb 0x80 b && N.leb b 0xBF.

(** Strict decoding: overlong forms, surrogates, code points above
    [0x10FFFF] and truncated sequences are errors ([None] stands for
    [UnicodeDecodeError]). *)
Fixpoint decode (bs : bytes) : option pystr :=
  match bs with
  | [] => Some []
  | b0 :: r0 =>
      let n0 := Byte.to_N b0 in
      if N.ltb n0 0x80 then option_map (cons n0) (decode r0)
      else if N.leb 0xC2 n0 && N.leb n0 0xDF then
        match r0 with
        | b1 :: r1 =>
            let n1 := Byte.to_N b1 in
            if is_cont n1
            then option_map (cons ((n0 - 0xC0) * 64 + (n1 - 0x80))%N) (decode r1)
            else None
        | _ => None
        end
      else if N.leb 0xE0 n0 && N.leb n0 0xEF then
        match r0 with
        | b1 :: b2 :: r2 =>
            let n1 := Byte.to_N b1 in
            let n2 := Byte.to_N b2 in
            let c := ((n0 - 0xE0) * 4096 + (n1 - 0x80) * 64 + (n2 - 0x80))%N in
            if is_cont n1 && is_cont n2 && N.leb 0x800 c
               && negb (N.leb 0xD800 c && N.leb c 0xDFFF)
            then option_map (cons c) (decode r2)
            else None
        | _ => None
        end
      else if N.leb 0xF0 n0 && N.leb n0 0xF4 then
        match r0 with
        | b1 :: b2 :: b3 :: r3 =>
            let n1 := Byte.to_N b1 in
            let n2 := Byte.to_N b2 in
            let n3 := Byte.to_N b3 in
            let c := ((n0 - 0xF0) * 262144 + (n1 - 0x80) * 4096
                      + (n2 - 0x80) * 64 + (n3 - 0x80))%N in
            if is_cont n1 && is_cont n2 && is_cont n3
               && N.leb 0x10000 c && N.leb c 0x10FFFF
            then option_map (cons c) (decode r3)
            else None
        | _ => None
        end
      else None
  end.

(** Strict encoding: a surrogate code point is an error ([None] stands for
    [UnicodeEncodeError]). *)
Definition encode_char (c : N) : option bytes :=
  if N.ltb c 0x80 then Some [byte_of c]
  else if N.ltb c 0x800 then
    Some [byte_of (0xC0 + c / 64); byte_of (0x80 + c mod 64)]%N
  else if N.ltb c 0x10000 then
    if is_high_surrogate c || is_low_surrogate c then None
    else Some [byte_of (0xE0 + c / 4096); byte_of (0x80 + c / 64 mod 64);
               byte_of (0x80 + c mod 64)]%N
  else if N.ltb c 0x110000 then
    Some [byte_of (0xF0 + c / 262144); byte_of (0x80 + c / 4096 mod 64);
          byte_of (0x80 + c / 64 mod 64); byte_of (0x80 + c mod 64)]%N
  else None.

Fixpoint encode (s : pystr) : option bytes :=
  match s with
  | [] => Some []
  | c :: r =>
      match encode_char c, encode r with
      | Some bc, Some br => Some (bc ++ br)
      | _, _ => None
      end
  end.

End Utf8.
Import Utf8.

(* ------------------------------------------------------------------ *)
(** ** The [struct] format ['=I']: an unsigned 32-bit integer in the
    byte order of the machine, standard size, no alignment *)

Module Struct.

Inductive byteorder := LittleEndian | BigEndian.

Definition le_bytes (n : N) : bytes :=
  [byte_of (n mod 256); byte_of (n / 256 mod 256);
   byte_of (n / 65536 mod 256); byte_of (n / 16777216 mod 256)]%N.

Definition le_value (bs : bytes) : N :=
  fold_right (fun b acc => Byte.to_N b + 256 * acc)%N 0%N bs.

(** [struct.pack('=I', n)]; [None] stands for [struct.error], raised when
    [n] does not fit in 32 bits. *)
Definition pack (bo : byteorder) (n : N) : option bytes :=
  if N.ltb n (2 ^ 32) then
    Some (match bo with LittleEndian => le_bytes n | BigEndian => rev (le_bytes n) end)
  else None.

(** [struct.unpack('=I', buf)[0]]; [None] stands for [struct.error], raised
    when the buffer is not exactly 4 bytes long. *)
Definition unpack (bo : byteorder) (buf : bytes) : option N :=
  if Nat.eqb (length buf) 4 then
    Some (le_value (match bo with LittleEndian => buf | BigEndian => rev buf end))
  else None.

End Struct.
Import Struct.

(* ------------------------------------------------------------------ *)
(** ** JSON documents, [json.dumps] and [json.loads] *)

Module Json.

(** A float is carried as the literal it was read from: the host never
    computes with floats, it only tests them for truth and prints them
    back.  The conversion of a literal to a binary64 and the printing of a
    binary64 are left to the environment (see [Env] below). *)
Inductive float_literal :=
| FNaN
| FInfinity
| FNegInfinity
| FNumber (d : Decimal.decimal).

(** The values [json.loads] can return; a [dict] keeps its insertion
    order. *)
#[warnings="-register-all"]
Inductive json :=
| JNull
| JBool (b : bool)
| JInt (z : Z)
| JFloat (f : float_literal)
| JStr (s : pystr)
| JList (l : list json)
| JDict (d : list (pystr * json)).

Definition is_None (v : json) : bool :=
  match v with JNull => true | _ => false end.

(** *** Dictionaries *)

Fixpoint dict_lookup (d : list (pystr * json)) (k : pystr) : option json :=
  match d with
  | [] => None
  | (k', v) :: r => if pystr_eqb k' k then Some v else dict_lookup r k
  end.

(** [d[k] = v]: an existing key keeps its position. *)
Fixpoint dict_set (d : list (pystr * json)) (k : pystr) (v : json)
  : list (pystr * json) :=
  match d with
  | [] => [(k, v)]
  | (k', v') :: r =>
      if pystr_eqb k' k then (k', v) :: r else (k', v') :: dict_set r k v
  end.

(** [dict(pairs)] *)
Definition dict_of_pairs (ps : list (pystr * json)) : list (pystr * json) :=
  fold_left (fun d kv => dict_set d (fst kv) (snd kv)) ps [].

(** *** Truth value of a document, as [bool(v)] *)

(** A literal denotes the float zero when it rounds to it: its value
    [m * 10^k] is at most [2^-1075], half of the least subnormal. *)
Definition float_is_zero (f : float_literal) : bool :=
  match f with
  | FNumber d =>
      let '(i, fr, e) :=
        match d with
        | Decimal.Decimal i fr => (i, fr, 0%Z)
        | Decimal.DecimalExp i fr e => (i, fr, Z.of_int e)
        end in
      let m := N.of_uint (Decimal.app (Decimal.abs i) fr) in
      let k := (e - Z.of_nat (Decimal.nb_digits fr))%Z in
      if N.eqb m 0 then true
      else if Z.leb 0 k then false
      else Z.leb (Z.of_N m * 2 ^ 1075) (10 ^ (- k))
  | _ => false
  end.

Definition truthy (v : json) : bool :=
  match v with
  | JNull => false
  | JBool b => b
  | JInt z => negb (Z.eqb z 0)
  | JFloat f => negb (float_is_zero f)
  | JStr s => match s with [] => false | _ => true end
  | JList l => match l with [] => false | _ => true end
  | JDict d => match d with [] => false | _ => true end
  end.

(** [type(v).__name__] *)
Definition type_name (v : json) : pystr :=
  match v with
  | JNull => lit "NoneType"
  | JBool _ => lit "bool"
  | JInt _ => lit "int"
  | JFloat _ => lit "float"
  | JStr _ => lit "str"
  | JList _ => lit "list"
  | JDict _ => lit "dict"
  end.

(** *** [json.dumps] with its default options: ASCII-only output, the
    separators [", "] and [": "], keys in insertion order *)

Fixpoint join (sep : pystr) (parts : list pystr) : pystr :=
  match parts with
  | [] => []
  | [p] => p
  | p :: ps => p ++ sep ++ join sep ps
  end.

(** One character of [encode_basestring_ascii]. *)
Definition escape_char (c : N) : pystr :=
  if N.eqb c 34 then [92; 34]%N
  else if N.eqb c 92 then [92; 92]%N
  else if N.eqb c 8 then [92; 98]%N
  else if N.eqb c 12 then [92; 102]%N
  else if N.eqb c 10 then [92; 110]%N
  else if N.eqb c 13 then [92; 114]%N
  else if N.eqb c 9 then [92; 116]%N
  else if N.leb 32 c && N.leb c 126 then [c]
  else if N.ltb c 0x10000 then 92%N :: 117%N :: hex4 c
  else
    let n := (c - 0x10000)%N in
    let s1 := N.lor 0xd800 (N.land (N.shiftr n 10) 0x3ff) in
    let s2 := N.lor 0xdc00 (N.land n 0x3ff) in
    (92%N :: 117%N :: hex4 s1) ++ (92%N :: 117%N :: hex4 s2).

Definition encode_basestring_ascii (s : pystr) : pystr :=
  34%N :: flat_map escape_char s ++ [34%N].

Section Dumps.

(** The encoder's [floatstr]: [float.__repr__] of the float denoted by the
    literal, or [NaN], [Infinity], [-Infinity]. *)
Variable floatstr : float_literal -> pystr.

Fixpoint dumps (v : json) : pystr :=
  match v with
  | JNull => lit "null"
  | JBool true => lit "true"
  | JBool false => lit "false"
  | JInt z => repr_int z
  | JFloat f => floatstr f
  | JStr s => encode_basestring_ascii s
  | JList l => lit "[" ++ join (lit ", ") (map dumps l) ++ lit "]"
  | JDict d =>
      lit "{"
      ++ join (lit ", ")
           (map (fun kv => encode_basestring_ascii (fst kv) ++ lit ": " ++ dumps (snd kv)) d)
      ++ lit "}"
  end.

End Dumps.

(** *** [str(v)] and [repr(v)], as used by f-strings *)

Section Repr.

(** [str.isprintable] on one character (the Unicode character database)
    and [float.__repr__] of the float denoted by a literal. *)
Variable isprintable : N -> bool.
Variable float_repr : float_literal -> pystr.

Definition mem_char (c : N) (s : pystr) : bool := existsb (N.eqb c) s.

Definition repr_char (quote c : N) : pystr :=
  if N.eqb c quote || N.eqb c 92 then [92%N; c]
  else if N.eqb c 9 then [92; 116]%N
  else if N.eqb c 10 then [92; 110]%N
  else if N.eqb c 13 then [92; 114]%N
  else if N.ltb c 32 || N.eqb c 0x7f then 92%N :: 120%N :: hex2 c
  else if N.ltb c 0x7f then [c]
  else if isprintable c then [c]
  else if N.leb c 0xff then 92%N :: 120%N :: hex2 c
  else if N.leb c 0xffff then 92%N :: 117%N :: hex4 c
  else 92%N :: 85%N :: hex8 c.

Definition repr_str (s : pystr) : pystr :=
  let quote := if mem_char 39 s && negb (mem_char 34 s) then 34%N else 39%N in
  quote :: flat_map (repr_char quote) s ++ [quote].

Fixpoint py_repr (v : json) : pystr :=
  match v with
  | JNull => lit "None"
  | JBool true => lit "True"
  | JBool false => lit "False"
  | JInt z => repr_int z
  | JFloat f => float_repr f
  | JStr s => repr_str s
  | JList l => lit "[" ++ join (lit ", ") (map py_repr l) ++ lit "]"
  | JDict d =>
      lit "{"
      ++ join (lit ", ")
           (map (fun kv => repr_str (fst kv) ++ lit ": " ++ py_repr (snd kv)) d)
      ++ lit "}"
  end.

(** What an f-string field [{v}] expands to. *)
Definition py_str (v : json) : pystr :=
  match v with
  | JStr s => s
  | _ => py_repr v
  end.

End Repr.

(** *** [json.loads] *)

(** Outcome of a scanner: a value and the rest of the text, a syntax error,
    or the recursion budget of the embedding running out ([loads] gives a
    budget that never does, see [scan_once_fuel]). *)
Inductive parse (A : Type) :=
| Parsed (a : A) (rest : pystr)
| Invalid
| Exhausted.
Arguments Invalid {A}.
Arguments Exhausted {A}.

Definition is_ws (c : N) : bool :=
  N.eqb c 32 || N.eqb c 9 || N.eqb c 10 || N.eqb c 13.

Fixpoint skip_ws (s : pystr) : pystr :=
  match s with
  | c :: r => if is_ws c then skip_ws r else s
  | [] => []
  end.

Fixpoint strip_prefix (p s : pystr) : option pystr :=
  match p, s with
  | [], _ => Some s
  | x :: p', y :: s' => if N.eqb x y then strip_prefix p' s' else None
  | _ :: _, [] => None
  end.

Definition consr (c : N) (r : option (pystr * pystr)) : option (pystr * pystr) :=
  match r with
  | Some (str, rest) => Some (c :: str, rest)
  | None => None
  end.

Definition backslash (esc : N) : option N :=
  if N.eqb esc 34 then Some 34%N
  else if N.eqb esc 92 then Some 92%N
  else if N.eqb esc 47 then Some 47%N
  else if N.eqb esc 98 then Some 8%N
  else if N.eqb esc 102 then Some 12%N
  else if N.eqb esc 110 then Some 10%N
  else if N.eqb esc 114 then Some 13%N
  else if N.eqb esc 116 then Some 9%N
  else None.

(** [scanstring], strict, started after the opening quote. *)
Fixpoint scanstring (s : pystr) : option (pystr * pystr) :=
  match s with
  | [] => None
  | c :: r =>
      if N.eqb c 34 then Some ([], r)
      else if N.eqb c 92 then
        match r with
        | [] => None
        | esc :: r1 =>
            if N.eqb esc 117 then
              match r1 with
              | h1 :: h2 :: h3 :: h4 :: r2 =>
                  match unhex4 h1 h2 h3 h4 with
                  | None => None
                  | Some uni =>
                      if is_high_surrogate uni then
                        match r2 with
                        | b :: u :: g1 :: g2 :: g3 :: g4 :: r3 =>
                            if N.eqb b 92 && N.eqb u 117 then
                              match unhex4 g1 g2 g3 g4 with
                              | None => None
                              | Some uni2 =>
                                  if is_low_surrogate uni2 then
                                    consr (0x10000
                                           + N.lor (N.shiftl (uni - 0xd800) 10)
                                                   (uni2 - 0xdc00))%N
                                          (scanstring r3)
                                  else consr uni (scanstring r2)
                              end
                            else consr uni (scanstring r2)
                        | _ => consr uni (scanstring r2)
                        end
                      else consr uni (scanstring r2)
                  end
              | _ => None
              end
            else
              match backslash esc with
              | Some ch => consr ch (scanstring r1)
              | None => None
              end
        end
      else if N.ltb c 32 then None
      else consr c (scanstring r)
  end.

(** The three groups of [NUMBER_RE]: an integer part (an optional minus
    sign, then either a single zero or a non-zero digit followed by digits),
    an optional fraction (a dot and at least one digit) and an optional
    exponent ([e] or [E], an optional sign and at least one digit). *)
Definition match_integer (s : pystr) : option (Decimal.int * pystr) :=
  let '(neg, s1) :=
    match s with
    | c :: r => if N.eqb c 45 then (true, r) else (false, s)
    | [] => (false, s)
    end in
  let sign := if neg then Decimal.Neg else Decimal.Pos in
  match s1 with
  | c :: r =>
      if N.eqb c 48 then Some (sign (Decimal.D0 Decimal.Nil), r)
      else if N.leb 49 c && N.leb c 57
      then let (d, r') := scan_digits s1 in Some (sign d, r')
      else None
  | [] => None
  end.

Definition match_frac (s : pystr) : option Decimal.uint * pystr :=
  match s with
  | c :: r =>
      if N.eqb c 46 then
        match scan_digits r with
        | (Decimal.Nil, _) => (None, s)
        | (d, r') => (Some d, r')
        end
      else (None, s)
  | [] => (None, s)
  end.

Definition match_exp (s : pystr) : option Decimal.int * pystr :=
  match s with
  | c :: r =>
      if N.eqb c 101 || N.eqb c 69 then
        let '(neg, r1) :=
          match r with
          | sg :: r' =>
              if N.eqb sg 45 then (true, r')
              else if N.eqb sg 43 then (false, r')
              else (false, r)
          | [] => (false, r)
          end in
        match scan_digits r1 with
        | (Decimal.Nil, _) => (None, s)
        | (d, r') => (Some (if neg then Decimal.Neg d else Decimal.Pos d), r')
        end
      else (None, s)
  | [] => (None, s)
  end.

(** [int(text)] on the integer group. *)
Definition int_value (i : Decimal.int) : Z :=
  match i with
  | Decimal.Pos d => Z.of_N (N.of_uint d)
  | Decimal.Neg d => Z.opp (Z.of_N (N.of_uint d))
  end.

Definition match_number (s : pystr) : option (json * pystr) :=
  match match_integer s with
  | None => None
  | Some (i, r) =>
      let (fr, r1) := match_frac r in
      let (ex, r2) := match_exp r1 in
      match fr, ex with
      | None, None => Some (JInt (int_value i), r2)
      | Some f, None => Some (JFloat (FNumber (Decimal.Decimal i f)), r2)
      | None, Some e => Some (JFloat (FNumber (Decimal.DecimalExp i Decimal.Nil e)), r2)
      | Some f, Some e => Some (JFloat (FNumber (Decimal.DecimalExp i f e)), r2)
      end
  end.

(** Constants and numbers, in the order [scan_once] tries them. *)
Definition scan_atom (s : pystr) : parse json :=
  match strip_prefix (lit "null") s with
  | Some r => Parsed JNull r
  | None =>
  match strip_prefix (lit "true") s with
  | Some r => Parsed (JBool true) r
  | None =>
  match strip_prefix (lit "false") s with
  | Some r => Parsed (JBool false) r
  | None =>
  match match_number s with
  | Some (v, r) => Parsed v r
  | None =>
  match strip_prefix (lit "NaN") s with
  | Some r => Parsed (JFloat FNaN) r
  | None =>
  match strip_prefix (lit "Infinity") s with
  | Some r => Parsed (JFloat FInfinity) r
  | None =>
  match strip_prefix (lit "-Infinity") s with
  | Some r => Parsed (JFloat FNegInfinity) r
  | None => Invalid
  end end end end end end end.

(** [scan_once], with [JSONArray] and [JSONObject] unfolded into it; the
    two loops are [array_items] (entered at the first value) and
    [object_pairs] (entered after the opening quote of a key). *)
Fixpoint scan_once (fuel : nat) (s : pystr) {struct fuel} : parse json :=
  match fuel with
  | O => Exhausted
  | S fuel' =>
      match s with
      | [] => Invalid
      | c :: r =>
          if N.eqb c 34 then
            match scanstring r with
            | Some (str, r') => Parsed (JStr str) r'
            | None => Invalid
            end
          else if N.eqb c 123 then
            match skip_ws r with
            | c1 :: r1 =>
                if N.eqb c1 125 then Parsed (JDict []) r1
                else if N.eqb c1 34 then
                  match object_pairs fuel' r1 with
                  | Parsed ps r2 => Parsed (JDict (dict_of_pairs ps)) r2
                  | Invalid => Invalid
                  | Exhausted => Exhausted
                  end
                else Invalid
            | [] => Invalid
            end
          else if N.eqb c 91 then
            match skip_ws r with
            | c1 :: r1 =>
                if N.eqb c1 93 then Parsed (JList []) r1
                else
                  match array_items fuel' (c1 :: r1) with
                  | Parsed vs r2 => Parsed (JList vs) r2
                  | Invalid => Invalid
                  | Exhausted => Exhausted
                  end
            | [] => Invalid
            end
          else scan_atom s
      end
  end

with array_items (fuel : nat) (s : pystr) {struct fuel} : parse (list json) :=
  match fuel with
  | O => Exhausted
  | S fuel' =>
      match scan_once fuel' s with
      | Parsed v r =>
          match skip_ws r with
          | c :: r1 =>
              if N.eqb c 93 then Parsed [v] r1
              else if N.eqb c 44 then
                match array_items fuel' (skip_ws r1) with
                | Parsed vs r2 => Parsed (v :: vs) r2
                | Invalid => Invalid
                | Exhausted => Exhausted
                end
              else Invalid
          | [] => Invalid
          end
      | Invalid => Invalid
      | Exhausted => Exhausted
      end
  end

with object_pairs (fuel : nat) (s : pystr) {struct fuel}
  : parse (list (pystr * json)) :=
  match fuel with
  | O => Exhausted
  | S fuel' =>
      match scanstring s with
      | None => Invalid
      | Some (key, r) =>
          match skip_ws r with
          | c :: r1 =>
              if N.eqb c 58 then
                match scan_once fuel' (skip_ws r1) with
                | Parsed v r2 =>
                    match skip_ws r2 with
                    | c2 :: r3 =>
                        if N.eqb c2 125 then Parsed [(key, v)] r3
                        else if N.eqb c2 44 then
                          match skip_ws r3 with
                          | q :: r4 =>
                              if N.eqb q 34 then
                                match object_pairs fuel' r4 with
                                | Parsed ps r5 => Parsed ((key, v) :: ps) r5
                                | Invalid => Invalid
                                | Exhausted => Exhausted
                                end
                              else Invalid
                          | [] => Invalid
                          end
                        else Invalid
                    | [] => Invalid
                    end
                | Invalid => Invalid
                | Exhausted => Exhausted
                end
              else Invalid
          | [] => Invalid
          end
      end
  end.

(** [json.loads(s)]: one document, surrounded by optional whitespace;
    [None] stands for [JSONDecodeError]. *)
Definition loads (s : pystr) : option json :=
  match scan_once (S (2 * length s)) (skip_ws s) with
  | Parsed v r => match skip_ws r with [] => Some v | _ :: _ => None end
  | Invalid => None
  | Exhausted => None
  end.

End Json.
Import Json.

(* ------------------------------------------------------------------ *)
(** ** The host process *)

Module Host.

(** Exceptions the host can meet.  [Exception] and [AttributeError] carry
    their message; the library errors carry the value that was refused. *)
Inductive exn :=
| Exception (msg : pystr)
| AttributeError (msg : pystr)
| StructUnpackError (buf : bytes)
| StructPackError (n : N)
| UnicodeDecodeError (input : bytes)
| UnicodeEncodeError (text : pystr)
| JSONDecodeError (doc : pystr).

(** What is fixed when the module is imported: the two module-level flags,
    the byte order of the machine, and the pieces of the Python runtime the
    embedding does not compute (floats, the character database, the wording
    of library errors). *)
Record Env := {
  PYKEEPASS_AVAILABLE : bool;
  LOG_ENABLED : bool;
  native_byteorder : byteorder;
  floatstr : float_literal -> pystr;
  float_repr : float_literal -> pystr;
  isprintable : N -> bool;
  library_error_text : exn -> pystr
}.

Inductive log_level := Info | Warning | Error.

(** The attributes set by [KeePassHost.__init__]. *)
Record KeePassHost (PyKeePass : Type) := {
  kp : option PyKeePass;
  database_path : option pystr;
  is_connected : bool
}.

(** The process: the host object, what is left to read on stdin, what has
    been written to stdout, and the records handed to [logging]. *)
Record Process (PyKeePass : Type) := {
  self : KeePassHost PyKeePass;
  stdin : bytes;
  stdout : bytes;
  logfile : list (log_level * pystr)
}.

Inductive outcome (A : Type) :=
| Return (a : A)
| Raise (e : exn).
Arguments Raise {A}.

Inductive loop_state := Running | Stopped.

Declare Scope host_scope.
Delimit Scope host_scope with host.

Section WithEnv.

Variable PyKeePass : Type.
Variable env : Env.

(** Statements run in a process and either return or raise. *)
Definition M (A : Type) := Process PyKeePass -> outcome A * Process PyKeePass.

Definition ret {A} (a : A) : M A := fun w => (Return a, w).

Definition raise {A} (e : exn) : M A := fun w => (Raise e, w).

Definition bind {A B} (c : M A) (k : A -> M B) : M B :=
  fun w =>
    match c w with
    | (Return a, w') => k a w'
    | (Raise e, w') => (Raise e, w')
    end.

(** [try: body  except Exception as e: handler] *)
Definition try_except {A} (body : M A) (handler : exn -> M A) : M A :=
  fun w =>
    match body w with
    | (Return a, w') => (Return a, w')
    | (Raise e, w') => handler e w'
    end.

Notation "x <- c1 ;; c2" := (bind c1 (fun x => c2))
  (at level 61, c1 at next level, right associativity) : host_scope.
Notation "c1 ;; c2" := (bind c1 (fun _ => c2))
  (at level 61, right associativity) : host_scope.
Local Open Scope host_scope.

(** [str(e)] *)
Definition exn_str (e : exn) : pystr :=
  match e with
  | Exception msg => msg
  | AttributeError msg => msg
  | _ => env.(library_error_text) e
  end.

(** An f-string field. *)
Definition fmt (v : json) : pystr := py_str env.(isprintable) env.(float_repr) v.

(** *** Streams and library calls *)

(** [sys.stdin.buffer.read(n)]: up to [n] bytes, fewer only at end of
    stream. *)
Definition stdin_read (n : nat) : M bytes :=
  fun w =>
    (Return (firstn n w.(stdin)),
     {| self := w.(self); stdin := skipn n w.(stdin);
        stdout := w.(stdout); logfile := w.(logfile) |}).

Definition stdout_write (data : bytes) : M unit :=
  fun w =>
    (Return tt,
     {| self := w.(self); stdin := w.(stdin);
        stdout := w.(stdout) ++ data; logfile := w.(logfile) |}).

Definition stdout_flush : M unit := ret tt.

Definition struct_unpack (buf : bytes) : M N :=
  match Struct.unpack env.(native_byteorder) buf with
  | Some n => ret n
  | None => raise (StructUnpackError buf)
  end.

Definition struct_pack (n : N) : M bytes :=
  match Struct.pack env.(native_byteorder) n with
  | Some b => ret b
  | None => raise (StructPackError n)
  end.

Definition bytes_decode (b : bytes) : M pystr :=
  match Utf8.decode b with
  | Some s => ret s
  | None => raise (UnicodeDecodeError b)
  end.

Definition str_encode (s : pystr) : M bytes :=
  match Utf8.encode s with
  | Some b => ret b
  | None => raise (UnicodeEncodeError s)
  end.

Definition json_loads (s : pystr) : M json :=
  match Json.loads s with
  | Some v => ret v
  | None => raise (JSONDecodeError s)
  end.

Definition json_dumps (v : json) : pystr := Json.dumps env.(floatstr) v.

(** [obj.get(key, default)]: only a [dict] has the method. *)
Definition py_get (obj : json) (key : pystr) (default : json) : M json :=
  match obj with
  | JDict d =>
      ret (match dict_lookup d key with Some v => v | None => default end)
  | _ =>
      raise (AttributeError
               (lit "'" ++ type_name obj ++ lit "' object has no attribute 'get'"))
  end.

(** [v == 'text'] *)
Definition eq_str (v : json) (text : pystr) : bool :=
  match v with
  | JStr s => pystr_eqb s text
  | _ => false
  end.

(** [os.path.basename] (POSIX flavour): what follows the last slash. *)
Fixpoint basename (p : pystr) : pystr :=
  match p with
  | [] => []
  | c :: r =>
      if existsb (N.eqb 47) r then basename r
      else if N.eqb c 47 then r
      else p
  end.

(** *** The methods of [KeePassHost] *)

Definition log (message : pystr) (level : log_level) : M unit :=
  fun w =>
    if env.(LOG_ENABLED) then
      (Return tt,
       {| self := w.(self); stdin := w.(stdin); stdout := w.(stdout);
          logfile := w.(logfile) ++ [(level, message)] |})
    else (Return tt, w).

Definition get_self : M (KeePassHost PyKeePass) := fun w => (Return w.(self), w).

Definition read_message : M json :=
  try_except
    (raw_length <- stdin_read 4 ;;
     match raw_length with
     | [] => ret JNull
     | _ :: _ =>
         message_length <- struct_unpack raw_length ;;
         raw <- stdin_read (N.to_nat message_length) ;;
         message <- bytes_decode raw ;;
         json_loads message
     end)
    (fun e =>
       log (lit "Error reading message: " ++ exn_str e) Error ;;
       ret JNull).

Definition send_message (message : json) : M unit :=
  try_except
    (encoded_message <- str_encode (json_dumps message) ;;
     let message_length := N.of_nat (length encoded_message) in
     prefix <- struct_pack message_length ;;
     stdout_write prefix ;;
     stdout_write encoded_message ;;
     stdout_flush)
    (fun e => log (lit "Error sending message: " ++ exn_str e) Error).

Definition handle_test_connection (data : json) : M json :=
  ret (JDict
         [(lit "connected", JBool env.(PYKEEPASS_AVAILABLE));
          (lit "message",
           JStr (if env.(PYKEEPASS_AVAILABLE)
                 then lit "Connection test successful"
                 else lit "PyKeePass not available"))]).

Definition handle_get_credentials (data : json) : M json :=
  if negb env.(PYKEEPASS_AVAILABLE)
  then raise (Exception (lit "PyKeePass not available"))
  else
    domain <- py_get data (lit "domain") (JStr []) ;;
    if negb (truthy domain)
    then raise (Exception (lit "Domain not provided"))
    else
      log (lit "Fetching credentials for domain: " ++ fmt domain) Info ;;
      let credentials := JList [] in
      ret (JDict [(lit "credentials", credentials)]).

Definition handle_get_status (data : json) : M json :=
  this <- get_self ;;
  let loaded := match this.(kp) with Some _ => true | None => false end in
  ret (JDict
         [(lit "isOpen", JBool loaded);
          (lit "isDatabaseLoaded", JBool loaded);
          (lit "databaseName",
           JStr (match this.(database_path) with
                 | Some (c :: p) => basename (c :: p)
                 | _ => []
                 end))]).

(** The routing [if]/[elif] chain of [handle_message]. *)
Definition route (action data : json) : M json :=
  if eq_str action (lit "test-connection") then handle_test_connection data
  else if eq_str action (lit "get-credentials") then handle_get_credentials data
  else if eq_str action (lit "get-status") then handle_get_status data
  else raise (Exception (lit "Unknown action: " ++ fmt action)).

Definition success_response (message_id action result : json) : json :=
  JDict [(lit "id", message_id); (lit "action", action);
         (lit "success", JBool true); (lit "data", result)].

Definition error_response (message_id action : json) (e : exn) : json :=
  JDict [(lit "id", message_id); (lit "action", action);
         (lit "success", JBool false); (lit "error", JStr (exn_str e))].

Definition handle_message (message : json) : M json :=
  message_id <- py_get message (lit "id") JNull ;;
  action <- py_get message (lit "action") JNull ;;
  data <- py_get message (lit "data") (JDict []) ;;
  log (lit "Handling action: " ++ fmt action) Info ;;
  try_except
    (result <- route action data ;;
     ret (success_response message_id action result))
    (fun e =>
       log (lit "Error handling action " ++ fmt action ++ lit ": " ++ exn_str e) Error ;;
       ret (error_response message_id action e)).

(** One pass through the body of [while True:]; [Stopped] is the [break]. *)
Definition loop_body : M loop_state :=
  message <- read_message ;;
  if is_None message then ret Stopped
  else
    response <- handle_message message ;;
    send_message response ;;
    ret Running.

(** The [while True:] loop, with a budget of iterations; the result tells
    whether the loop was left ([true]) or the budget ran out ([false]). *)
Fixpoint while_true (fuel : nat) : M bool :=
  match fuel with
  | O => ret false
  | S fuel' =>
      st <- loop_body ;;
      match st with
      | Stopped => ret true
      | Running => while_true fuel'
      end
  end.

Definition run (fuel : nat) : M bool :=
  log (lit "KeePass native messaging host started") Info ;;
  finished <-
    try_except (while_true fuel)
      (fun e => log (lit "Fatal error: " ++ exn_str e) Error ;; ret true) ;;
  log (lit "KeePass native messaging host stopped") Info ;;
  ret finished.

(** The state of the session loop after one iteration started in [w]: an
    exception that leaves the body leaves the loop. *)
Definition next_state (w : Process PyKeePass) : loop_state :=
  match fst (loop_body w) with
  | Return st => st
  | Raise _ => Stopped
  end.

End WithEnv.

(** [KeePassHost()] *)
Definition new_host (PyKeePass : Type) : KeePassHost PyKeePass :=
  {| kp := None; database_path := None; is_connected := false |}.

(** A freshly started process with [input] waiting on stdin. *)
Definition start (PyKeePass : Type) (input : bytes) : Process PyKeePass :=
  {| self := new_host PyKeePass; stdin := input; stdout := []; logfile := [] |}.

End Host.
Import Host.

Unset Implicit Arguments.

(* ------------------------------------------------------------------ *)
(** ** Well-formed documents *)

(** A [str] that survives a trip through [json.dumps] and [json.loads]:
    its code points are in range and no high surrogate is directly followed
    by a low surrogate (the decoder would fuse the two escapes into one
    character). *)
Fixpoint str_ok (s : pystr) : bool :=
  match s with
  | [] => true
  | c :: r =>
      codepoint_ok c
      && match r with
         | c2 :: _ => negb (is_high_surrogate c && is_low_surrogate c2)
         | [] => true
         end
      && str_ok r
  end.

(** The two halves of the escape of a character outside the basic plane. *)
Definition high_half (c : N) : N := (0xd800 + (c - 0x10000) / 1024)%N.
Definition low_half (c : N) : N := (0xdc00 + (c - 0x10000) mod 1024)%N.

(** What follows a lone high-surrogate escape is not the escape of a low
    surrogate. *)
Definition no_low_escape (r : pystr) : Prop :=
  forall g1 g2 g3 g4 r3,
    r = 92%N :: 117%N :: g1 :: g2 :: g3 :: g4 :: r3 ->
    exists uni2, unhex4 g1 g2 g3 g4 = Some uni2 /\ is_low_surrogate uni2 = false.

(** What may follow a number without being read as part of it. *)
Definition not_digit_head (s : pystr) : Prop :=
  match s with
  | [] => True
  | c :: _ => digit_of c = None
  end.

Fixpoint keys_distinct (ks : list pystr) : bool :=
  match ks with
  | [] => true
  | k :: r => negb (existsb (pystr_eqb k) r) && keys_distinct r
  end.

(** The documents whose trip through [json.dumps] and [json.loads] the
    embedding follows exactly: no floats, well-formed strings, and (as in
    any Python [dict]) no key twice. *)
Fixpoint valid (v : json) : bool :=
  match v with
  | JNull | JBool _ | JInt _ => true
  | JFloat _ => false
  | JStr s => str_ok s
  | JList l => forallb valid l
  | JDict d =>
      keys_distinct (map fst d)
      && forallb (fun kv => str_ok (fst kv) && valid (snd kv)) d
  end.

(** Recursion budget [scan_once] needs to read a document back. *)
Fixpoint size (v : json) : nat :=
  match v with
  | JList l => S (list_sum (map (fun x => S (size x)) l))
  | JDict d => S (list_sum (map (fun kv => S (size (snd kv))) d))
  | _ => 1
  end.

(** What follows a value inside a serialized document: nothing, a comma,
    or a closing bracket or brace. *)
Definition ends_token (rest : pystr) : bool :=
  match rest with
  | [] => true
  | c :: _ => N.eqb c 44 || N.eqb c 93 || N.eqb c 125
  end.

(** One [key: value] item of a serialized mapping. *)
Definition entry (fs : float_literal -> pystr) (kv : pystr * json) : pystr :=
  encode_basestring_ascii (fst kv) ++ lit ": " ++ dumps fs (snd kv).

Definition ascii_only (s : pystr) : Prop := Forall (fun c => (c < 128)%N) s.

(* ------------------------------------------------------------------ *)
(** ** Vocabulary for the properties of the host *)

(** [d.get(k, default)] *)
Definition dict_get (d : list (pystr * json)) (k : pystr) (default : json) : json :=
  match dict_lookup d k with
  | Some v => v
  | None => default
  end.

Definition has_key (d : list (pystr * json)) (k : pystr) : bool :=
  match dict_lookup d k with
  | Some _ => true
  | None => false
  end.

(** Two states of the process that differ at most by their log. *)
Definition logs_only {P : Type} (w w' : Process P) : Prop :=
  self w' = self w /\ stdin w' = stdin w /\ stdout w' = stdout w.


(** What [read_message] returns, as a function of the byte order and of
    the bytes waiting on stdin. *)
Definition read_message_value (bo : byteorder) (input : bytes) : json :=
  match firstn 4 input with
  | [] => JNull
  | raw_length =>
      match Struct.unpack bo raw_length with
      | None => JNull
      | Some n =>
          match Utf8.decode (firstn (N.to_nat n) (skipn 4 input)) with
          | None => JNull
          | Some s =>
              match Json.loads s with
              | None => JNull
              | Some v => v
              end
          end
      end
  end.

(** What [read_message] leaves on stdin. *)
Definition read_message_rest (bo : byteorder) (input : bytes) : bytes :=
  match firstn 4 input with
  | [] => skipn 4 input
  | raw_length =>
      match Struct.unpack bo raw_length with
      | None => skipn 4 input
      | Some n => skipn (N.to_nat n) (skipn 4 input)
      end
  end.

(** The frame [send_message] writes for a document, when it writes one. *)
Definition frame_of (env : Env) (message : json) : option bytes :=
  match Utf8.encode (json_dumps env message) with
  | None => None
  | Some encoded =>
      match Struct.pack (native_byteorder env) (N.of_nat (length encoded)) with
      | None => None
      | Some prefix => Some (prefix ++ encoded)
      end
  end.

(** The same process around another host object. *)
Definition with_host {P : Type} (w : Process P) (h : KeePassHost P) : Process P :=
  {| self := h; stdin := stdin w; stdout := stdout w; logfile := logfile w |}.

(** The ways a read can fail: the stream ends before the length prefix is
    complete, or the bytes read as payload are not UTF-8, or their text is
    not a JSON document. *)
Inductive read_failure (bo : byteorder) : bytes -> Prop :=
| end_of_stream : read_failure bo []
| short_prefix (input : bytes) :
    length input < 4 -> read_failure bo input
| invalid_utf8 (prefix rest : bytes) (n : N) :
    Struct.unpack bo prefix = Some n ->
    Utf8.decode (firstn (N.to_nat n) rest) = None ->
    read_failure bo (prefix ++ rest)
| malformed_json (prefix rest : bytes) (n : N) (s : pystr) :
    Struct.unpack bo prefix = Some n ->
    Utf8.decode (firstn (N.to_nat n) rest) = Some s ->
    Json.loads s = None ->
    read_failure bo (prefix ++ rest).

(* ------------------------------------------------------------------ *)
(** ** Sample environments and inputs *)

(** A little-endian machine with logging off.  The float and character
    database entries are stand-ins: no example below contains a float or a
    character outside ASCII. *)
Definition sample_env (available : bool) : Env :=
  {| PYKEEPASS_AVAILABLE := available;
     LOG_ENABLED := false;
     native_byteorder := LittleEndian;
     floatstr := fun _ => lit "0.0";
     float_repr := fun _ => lit "0.0";
     isprintable := fun _ => true;
     library_error_text := fun _ => lit "error" |}.

(** JSON text written with single quotes standing for the double quotes. *)
Definition json_text (s : string) : pystr :=
  map (fun c => if N.eqb c 39 then 34%N else c) (lit s).

(** A complete little-endian frame around an ASCII payload. *)
Definition frame_bytes (payload : pystr) : bytes :=
  le_bytes (N.of_nat (length payload)) ++ map byte_of payload.


Definition sample_response : json :=
  JDict [(lit "id", JStr (lit "abc123"));
         (lit "action", JStr (lit "get-status"));
         (lit "success", JBool true);
         (lit "data",
          JDict [(lit "isOpen", JBool false);
                 (lit "isDatabaseLoaded", JBool false);
                 (lit "databaseName", JStr [])])].

(** A length prefix that claims [claimed] bytes, followed by an ASCII
    payload that may be shorter. *)
Definition claimed_frame (claimed : N) (payload : pystr) : bytes :=
  le_bytes claimed ++ map byte_of payload.

Definition request (action : string) (data : json) : json :=
  JDict [(lit "id", JStr (lit "abc123"));
         (lit "action", JStr (lit action));
         (lit "data", data)].

(* ------------------------------------------------------------------ *)
(** ** Vocabulary for whole sessions *)


(** What [read_message] makes of the payload of a complete frame. *)
Definition document_of (payload : bytes) : json :=
  match Utf8.decode payload with
  | None => JNull
  | Some s => match Json.loads s with None => JNull | Some v => v end
  end.






(** [w'] comes after [w] in a session: the host object is the same, stdout
    has grown at its end, stdin has lost bytes at its front, and the log has
    grown at its end, by nothing when logging is off. *)
Definition follows {P : Type} (env : Env) (w w' : Process P) : Prop :=
  self w' = self w
  /\ (exists written, stdout w' = stdout w ++ written)
  /\ (exists taken, stdin w = taken ++ stdin w')
  /\ (exists records,
        logfile w' = logfile w ++ records
        /\ (LOG_ENABLED env = false -> records = [])).

(** [self.kp is not None] *)
Definition loaded {P : Type} (h : KeePassHost P) : bool :=
  match kp h with Some _ => true | None => false end.

(** An [action] field that is a string, or missing. *)
Definition plain_action (action : json) : bool :=
  match action with
  | JNull | JStr _ => true
  | _ => false
  end.

(** The sample environment with [KEEPASS_HOST_DEBUG=1]. *)
Definition debug_env (available : bool) : Env :=
  {| PYKEEPASS_AVAILABLE := available;
     LOG_ENABLED := true;
     native_byteorder := LittleEndian;
     floatstr := fun _ => lit "0.0";
     float_repr := fun _ => lit "0.0";
     isprintable := fun _ => true;
     library_error_text := fun _ => lit "error" |}.

(** A host object that holds a database handle and its path. *)
Definition open_host (path : string) : KeePassHost unit :=
  {| kp := Some tt; database_path := Some (lit path); is_connected := true |}.

(** A value that is neither a list nor a mapping. *)
Definition scalar (v : json) : bool :=
  match v with
  | JList _ | JDict _ => false
  | _ => true
  end.

(** The path a host object holds, when it holds one, is a well-formed
    string. *)
Definition path_ok {P : Type} (h : KeePassHost P) : bool :=
  match database_path h with
  | Some path => str_ok path
  | None => true
  end.



(* ------------------------------------------------------------------ *)
(** ** Properties of the text layer *)

Lemma pystr_eqb_eq (a b : pystr) : pystr_eqb a b = true <-> a = b.
Proof.
  revert b; induction a as [|x a IH]; intros [|y b]; simpl; split; intros H;
    try reflexivity; try discriminate.
  - apply andb_true_iff in H as [Hx Hr].
    apply N.eqb_eq in Hx. apply IH in Hr. congruence.
  - injection H as -> ->. rewrite N.eqb_refl. simpl. now apply IH.
Qed.

Lemma pystr_eqb_refl (a : pystr) : pystr_eqb a a = true.
Proof. now apply pystr_eqb_eq. Qed.

Lemma pystr_eqb_neq (a b : pystr) : pystr_eqb a b = false <-> a <> b.
Proof.
  split.
  - intros H E. apply pystr_eqb_eq in E. congruence.
  - intros H. destruct (pystr_eqb a b) eqn:E; [|reflexivity].
    apply pystr_eqb_eq in E. contradiction.
Qed.

Lemma scan_digits_uint_chars (d : Decimal.uint) (rest : pystr) :
  not_digit_head rest -> scan_digits (uint_chars d ++ rest) = (d, rest).
Proof.
  intros H. induction d; simpl; try (rewrite IHd; reflexivity).
  destruct rest as [|c r]; [reflexivity|]. simpl in *. now rewrite H.
Qed.

Lemma pos_to_uint_normal (p : positive) :
  Decimal.unorm (Pos.to_uint p) = Pos.to_uint p.
Proof.
  rewrite <- DecimalPos.Unsigned.to_of.
  rewrite DecimalPos.Unsigned.of_to. reflexivity.
Qed.

(** The decimal digits of a positive number start with a non-zero digit. *)
Lemma pos_to_uint_head (p : positive) :
  exists c r, uint_chars (Pos.to_uint p) = c :: r
              /\ N.eqb c 45 = false /\ N.eqb c 48 = false
              /\ (N.leb 49 c && N.leb c 57) = true.
Proof.
  pose proof (pos_to_uint_normal p) as Hn.
  pose proof (DecimalPos.Unsigned.to_uint_nonnil p) as Hnil.
  pose proof (DecimalPos.Unsigned.to_uint_nonzero p) as Hz.
  destruct (Pos.to_uint p) as [|d|d|d|d|d|d|d|d|d|d] eqn:E;
    try (simpl; eexists _, _; repeat split; reflexivity).
  - contradiction.
  - exfalso. rewrite unorm_D0 in Hn. unfold Decimal.unorm in Hn.
    destruct (Decimal.nzhead d) eqn:Hd; try discriminate.
    + congruence.
    + apply (nzhead_nonzero d d). congruence.
Qed.

Lemma match_integer_digits (d : Decimal.uint) (c : N) (r rest : pystr) :
  uint_chars d = c :: r ->
  N.eqb c 45 = false -> N.eqb c 48 = false ->
  (N.leb 49 c && N.leb c 57) = true ->
  not_digit_head rest ->
  match_integer (uint_chars d ++ rest) = Some (Decimal.Pos d, rest)
  /\ match_integer (45%N :: uint_chars d ++ rest) = Some (Decimal.Neg d, rest).
Proof.
  intros E H1 H2 H3 H.
  pose proof (scan_digits_uint_chars d rest H) as Hs.
  unfold match_integer. rewrite N.eqb_refl.
  rewrite E in *. cbn [app] in *. rewrite H1, H2, H3, Hs. split; reflexivity.
Qed.

Lemma match_integer_repr_int (z : Z) (rest : pystr) :
  not_digit_head rest ->
  exists i, match_integer (repr_int z ++ rest) = Some (i, rest) /\ int_value i = z.
Proof.
  intros H. destruct z as [|p|p].
  - eexists; split; reflexivity.
  - destruct (pos_to_uint_head p) as (c & r & E & H1 & H2 & H3).
    destruct (match_integer_digits _ _ _ rest E H1 H2 H3 H) as [Hp _].
    exists (Decimal.Pos (Pos.to_uint p)). split; [exact Hp|].
    unfold int_value. change (Pos.to_uint p) with (N.to_uint (Npos p)).
    now rewrite DecimalN.Unsigned.of_to.
  - destruct (pos_to_uint_head p) as (c & r & E & H1 & H2 & H3).
    destruct (match_integer_digits _ _ _ rest E H1 H2 H3 H) as [_ Hn].
    exists (Decimal.Neg (Pos.to_uint p)). split; [exact Hn|].
    unfold int_value. change (Pos.to_uint p) with (N.to_uint (Npos p)).
    now rewrite DecimalN.Unsigned.of_to.
Qed.

(** *** Hexadecimal escapes *)

Lemma hex_value_hex_char (d : N) :
  (d < 16)%N -> hex_value (hex_char d) = Some d.
Proof.
  intros H.
  assert (E : In d [0;1;2;3;4;5;6;7;8;9;10;11;12;13;14;15]%N).
  { simpl. lia. }
  simpl in E.
  repeat (destruct E as [<-|E]; [reflexivity|]). contradiction.
Qed.

Lemma unhex4_hex4 (n : N) :
  (n < 65536)%N ->
  match hex4 n with
  | [a; b; c; d] => unhex4 a b c d = Some n
  | _ => False
  end.
Proof.
  intros H. unfold hex4, unhex4.
  rewrite !hex_value_hex_char by (apply N.mod_lt; discriminate).
  f_equal. clear - H. zify. Z.to_euclidean_division_equations. lia.
Qed.


(** *** Strings: [scanstring] undoes [encode_basestring_ascii] *)

Lemma lor_high_low (a b k : N) :
  (b < 2 ^ k)%N -> N.lor (a * 2 ^ k) b = (a * 2 ^ k + b)%N.
Proof.
  intros H.
  assert (E : N.land (a * 2 ^ k) b = 0%N).
  { apply N.bits_inj. intros i. rewrite N.land_spec, N.bits_0.
    destruct (N.lt_ge_cases i k) as [Hi|Hi].
    - now rewrite N.mul_pow2_bits_low.
    - rewrite <- (N.mod_small b (2 ^ k)) by assumption.
      rewrite N.mod_pow2_bits_high by assumption. apply andb_false_r. }
  rewrite <- N.lxor_lor by assumption. symmetry. now apply N.add_nocarry_lxor.
Qed.

Lemma surrogate_halves (c : N) :
  (0x10000 <= c)%N -> (c < 0x110000)%N ->
  let n := (c - 0x10000)%N in
  N.lor 0xd800 (N.land (N.shiftr n 10) 0x3ff) = high_half c
  /\ N.lor 0xdc00 (N.land n 0x3ff) = low_half c.
Proof.
  intros H1 H2 n. unfold high_half, low_half. fold n.
  assert (Hn : (n < 1048576)%N) by (unfold n; lia).
  change 0x3ff%N with (N.ones 10). rewrite !N.land_ones, N.shiftr_div_pow2.
  change (2 ^ 10)%N with 1024%N.
  assert (Hd : (n / 1024 < 1024)%N).
  { apply N.Div0.div_lt_upper_bound. exact Hn. }
  rewrite (N.mod_small (n / 1024)) by assumption.
  change 0xd800%N with (54 * 2 ^ 10)%N. change 0xdc00%N with (55 * 2 ^ 10)%N.
  split; apply lor_high_low; change (2 ^ 10)%N with 1024%N;
    [assumption | apply N.mod_lt; discriminate].
Qed.

Lemma halves_range (c : N) :
  (0x10000 <= c)%N -> (c < 0x110000)%N ->
  (0xd800 <= high_half c <= 0xdbff)%N /\ (0xdc00 <= low_half c <= 0xdfff)%N.
Proof.
  intros H1 H2. unfold high_half, low_half.
  assert (Hd : ((c - 0x10000) / 1024 < 1024)%N).
  { apply N.Div0.div_lt_upper_bound. lia. }
  assert (Hm : ((c - 0x10000) mod 1024 < 1024)%N) by (apply N.mod_lt; discriminate).
  revert Hd Hm.
  generalize ((c - 0x10000) / 1024)%N, ((c - 0x10000) mod 1024)%N.
  intros x y Hx Hy. lia.
Qed.

Lemma halves_join (c : N) :
  (0x10000 <= c)%N -> (c < 0x110000)%N ->
  (0x10000 + N.lor (N.shiftl (high_half c - 0xd800) 10) (low_half c - 0xdc00))%N = c.
Proof.
  intros H1 H2. unfold high_half, low_half.
  rewrite (N.add_comm 0xd800), (N.add_comm 0xdc00), !N.add_sub.
  rewrite N.shiftl_mul_pow2, lor_high_low
    by (change (2 ^ 10)%N with 1024%N; apply N.mod_lt; discriminate).
  change (2 ^ 10)%N with 1024%N.
  rewrite N.mul_comm, <- N.div_mod by discriminate. lia.
Qed.

(** The four shapes an escaped character can take. *)
Lemma escape_char_shape (c : N) :
  codepoint_ok c = true ->
  (exists x, escape_char c = [92%N; x] /\ backslash x = Some c /\ N.eqb x 117 = false)
  \/ (escape_char c = [c] /\ N.eqb c 34 = false /\ N.eqb c 92 = false
      /\ N.ltb c 32 = false)
  \/ (escape_char c = 92%N :: 117%N :: hex4 c /\ (c < 0x10000)%N)
  \/ (escape_char c = (92%N :: 117%N :: hex4 (high_half c))
                      ++ (92%N :: 117%N :: hex4 (low_half c))
      /\ (0x10000 <= c)%N /\ (c < 0x110000)%N).
Proof.
  intros Hc. unfold codepoint_ok in Hc. apply N.ltb_lt in Hc.
  unfold escape_char.
  destruct (N.eqb_spec c 34) as [->|H34]; [left; eexists; repeat split|].
  destruct (N.eqb_spec c 92) as [->|H92]; [left; eexists; repeat split|].
  destruct (N.eqb_spec c 8) as [->|H8]; [left; eexists; repeat split|].
  destruct (N.eqb_spec c 12) as [->|H12]; [left; eexists; repeat split|].
  destruct (N.eqb_spec c 10) as [->|H10]; [left; eexists; repeat split|].
  destruct (N.eqb_spec c 13) as [->|H13]; [left; eexists; repeat split|].
  destruct (N.eqb_spec c 9) as [->|H9]; [left; eexists; repeat split|].
  destruct (N.leb_spec 32 c) as [H32|H32]; cbn [andb].
  - destruct (N.leb_spec c 126) as [H126|H126].
    + right; left. repeat split. apply N.ltb_ge. assumption.
    + cbn [andb]. destruct (N.ltb_spec c 0x10000) as [Hb|Hb].
      * right; right; left. split; [reflexivity | assumption].
      * right; right; right.
        destruct (@surrogate_halves c Hb Hc) as [-> ->]. repeat split; assumption.
  - destruct (N.ltb_spec c 0x10000) as [Hb|Hb]; [|lia].
    right; right; left. split; [reflexivity | assumption].
Qed.

Lemma scanstring_plain (c : N) (r : pystr) :
  N.eqb c 34 = false -> N.eqb c 92 = false -> N.ltb c 32 = false ->
  scanstring (c :: r) = consr c (scanstring r).
Proof. intros H1 H2 H3. cbn [scanstring]. now rewrite H1, H2, H3. Qed.

Lemma scanstring_backslash (x ch : N) (r : pystr) :
  backslash x = Some ch -> N.eqb x 117 = false ->
  scanstring (92%N :: x :: r) = consr ch (scanstring r).
Proof.
  intros H1 H2. cbn [scanstring].
  change (N.eqb 92 34) with false. change (N.eqb 92 92) with true.
  cbv iota. now rewrite H2, H1.
Qed.

Lemma scanstring_u_lone (h1 h2 h3 h4 uni : N) (r : pystr) :
  unhex4 h1 h2 h3 h4 = Some uni ->
  is_high_surrogate uni = false \/ no_low_escape r ->
  scanstring (92%N :: 117%N :: h1 :: h2 :: h3 :: h4 :: r) = consr uni (scanstring r).
Proof.
  intros H1 H2. cbn [scanstring].
  change (N.eqb 92 34) with false. change (N.eqb 92 92) with true.
  change (N.eqb 117 117) with true. cbv iota. rewrite H1.
  destruct (is_high_surrogate uni) eqn:Hh; [|reflexivity].
  destruct H2 as [H2|H2]; [discriminate|].
  destruct r as [|b [|u [|g1 [|g2 [|g3 [|g4 r3]]]]]]; try reflexivity.
  destruct (N.eqb_spec b 92) as [->|Hb]; [|reflexivity].
  destruct (N.eqb_spec u 117) as [->|Hu]; [|reflexivity].
  cbn [andb].
  destruct (H2 g1 g2 g3 g4 r3 eq_refl) as (uni2 & E & Hl).
  now rewrite E, Hl.
Qed.

Lemma scanstring_u_pair (h1 h2 h3 h4 g1 g2 g3 g4 uni uni2 : N) (r : pystr) :
  unhex4 h1 h2 h3 h4 = Some uni -> is_high_surrogate uni = true ->
  unhex4 g1 g2 g3 g4 = Some uni2 -> is_low_surrogate uni2 = true ->
  scanstring (92%N :: 117%N :: h1 :: h2 :: h3 :: h4
              :: 92%N :: 117%N :: g1 :: g2 :: g3 :: g4 :: r)
  = consr (0x10000 + N.lor (N.shiftl (uni - 0xd800) 10) (uni2 - 0xdc00))%N
          (scanstring r).
Proof.
  intros H1 H2 H3 H4. cbn [scanstring].
  change (N.eqb 92 34) with false. change (N.eqb 92 92) with true.
  change (N.eqb 117 117) with true. cbv iota. rewrite H1, H2.
  cbn [andb]. now rewrite H3, H4.
Qed.

Lemma hex4_shape (n : N) :
  exists a b c d, hex4 n = [a; b; c; d].
Proof. unfold hex4. now eexists _, _, _, _. Qed.

Lemma surrogate_tests (u : N) :
  ((0xd800 <= u <= 0xdbff)%N -> is_high_surrogate u = true /\ is_low_surrogate u = false)
  /\ ((0xdc00 <= u <= 0xdfff)%N -> is_low_surrogate u = true /\ is_high_surrogate u = false).
Proof.
  unfold is_high_surrogate, is_low_surrogate.
  split; intros [H1 H2];
    destruct (N.leb_spec 0xD800 u), (N.leb_spec u 0xDBFF),
             (N.leb_spec 0xDC00 u), (N.leb_spec u 0xDFFF);
    cbn [andb]; split; solve [reflexivity | lia].
Qed.

Lemma str_ok_tail (c : N) (s : pystr) : str_ok (c :: s) = true -> str_ok s = true.
Proof.
  cbn [str_ok]. intros H. apply andb_true_iff in H as [_ H]. exact H.
Qed.

Lemma str_ok_head (c : N) (s : pystr) :
  str_ok (c :: s) = true -> codepoint_ok c = true.
Proof.
  cbn [str_ok]. intros H.
  apply andb_true_iff in H as [H _]. apply andb_true_iff in H as [H _]. exact H.
Qed.

(** What follows a lone high surrogate in an escaped well-formed string
    cannot be read as its second half. *)
Lemma escaped_no_low (c : N) (s rest : pystr) :
  str_ok (c :: s) = true ->
  is_high_surrogate c = false
  \/ no_low_escape (flat_map escape_char s ++ 34%N :: rest).
Proof.
  intros Hok. destruct (is_high_surrogate c) eqn:Hh; [right | now left].
  intros g1 g2 g3 g4 r3 E.
  destruct s as [|c2 s].
  - cbn in E. discriminate.
  - assert (Hc2 : codepoint_ok c2 = true).
    { apply str_ok_head with (s := s). now apply str_ok_tail with (c := c). }
    assert (Hl : is_low_surrogate c2 = false).
    { cbn [str_ok] in Hok. rewrite Hh in Hok.
      destruct (is_low_surrogate c2); [|reflexivity].
      cbn [andb negb] in Hok. now rewrite andb_false_r in Hok. }
    cbn [flat_map] in E. rewrite <- app_assoc in E.
    destruct (escape_char_shape c2 Hc2)
      as [(x & Ex & _ & Hx) | [(Ex & _ & H92 & _) | [(Ex & Hlt) | (Ex & Hge & Hlt)]]];
      rewrite Ex in E.
    + cbn [app] in E. injection E as E _. subst x. discriminate.
    + cbn [app] in E. injection E as E _. subst c2. discriminate.
    + pose proof (unhex4_hex4 c2 Hlt) as Hu.
      destruct (hex4_shape c2) as (a & b & c' & d & Eh). rewrite Eh in *.
      cbn [app] in E. injection E as -> -> -> -> _.
      exists c2. split; assumption.
    + destruct (halves_range c2 Hge Hlt) as [Hr _].
      assert (Hlt' : (high_half c2 < 65536)%N) by lia.
      pose proof (unhex4_hex4 (high_half c2) Hlt') as Hu.
      destruct (hex4_shape (high_half c2)) as (a & b & c' & d & Eh). rewrite Eh in *.
      cbn [app] in E. injection E as -> -> -> -> _.
      exists (high_half c2). split; [assumption|].
      now apply surrogate_tests.
Qed.

Lemma scanstring_escape (s rest : pystr) :
  str_ok s = true ->
  scanstring (flat_map escape_char s ++ 34%N :: rest) = Some (s, rest).
Proof.
  induction s as [|c s IH]; intros Hok.
  - reflexivity.
  - pose proof (str_ok_head _ _ Hok) as Hc.
    pose proof (str_ok_tail _ _ Hok) as Hs.
    pose proof (escaped_no_low c s rest Hok) as Hnl.
    specialize (IH Hs).
    cbn [flat_map]. rewrite <- app_assoc.
    destruct (escape_char_shape c Hc)
      as [(x & Ex & Hb & Hx) | [(Ex & H34 & H92 & H32) | [(Ex & Hlt) | (Ex & Hge & Hlt)]]];
      rewrite Ex.
    + cbn [app]. rewrite (scanstring_backslash x c _ Hb Hx), IH. reflexivity.
    + cbn [app]. rewrite scanstring_plain, IH by assumption. reflexivity.
    + pose proof (unhex4_hex4 c Hlt) as Hu.
      destruct (hex4_shape c) as (h1 & h2 & h3 & h4 & Eh). rewrite Eh in *.
      cbn [app]. rewrite (scanstring_u_lone h1 h2 h3 h4 c _ Hu Hnl), IH. reflexivity.
    + destruct (halves_range c Hge Hlt) as [Hrh Hrl].
      assert (Hh : (high_half c < 65536)%N) by lia.
      assert (Hl : (low_half c < 65536)%N) by lia.
      pose proof (unhex4_hex4 _ Hh) as Hu1. pose proof (unhex4_hex4 _ Hl) as Hu2.
      destruct (hex4_shape (high_half c)) as (h1 & h2 & h3 & h4 & Eh1).
      destruct (hex4_shape (low_half c)) as (g1 & g2 & g3 & g4 & Eh2).
      rewrite Eh1, Eh2 in *. cbn [app].
      rewrite (scanstring_u_pair h1 h2 h3 h4 g1 g2 g3 g4 _ _ _ Hu1
                 (proj1 (proj1 (surrogate_tests _) Hrh)) Hu2
                 (proj1 (proj2 (surrogate_tests _) Hrl))).
      rewrite IH, (halves_join c Hge Hlt). reflexivity.
Qed.

Lemma scanstring_encode (s rest : pystr) :
  str_ok s = true ->
  exists r, encode_basestring_ascii s ++ rest = 34%N :: r
            /\ scanstring r = Some (s, rest).
Proof.
  intros H. unfold encode_basestring_ascii.
  exists (flat_map escape_char s ++ 34%N :: rest). split.
  - cbn [app]. now rewrite <- app_assoc.
  - now apply scanstring_escape.
Qed.

(** *** Dictionaries *)

Lemma keys_distinct_NoDup (ks : list pystr) :
  keys_distinct ks = true <-> NoDup ks.
Proof.
  induction ks as [|k ks IH]; cbn [keys_distinct].
  - split; [constructor | reflexivity].
  - rewrite andb_true_iff, negb_true_iff, IH. split.
    + intros [Hn Hd]. constructor; [|assumption].
      intros Hin. assert (E : existsb (pystr_eqb k) ks = true).
      { apply existsb_exists. exists k. split; [assumption | apply pystr_eqb_refl]. }
      congruence.
    + intros Hd. inversion Hd as [|? ? Hn Hd']; subst. split; [|assumption].
      destruct (existsb (pystr_eqb k) ks) eqn:E; [|reflexivity].
      apply existsb_exists in E as (k' & Hin & Ek).
      apply pystr_eqb_eq in Ek. subst k'. contradiction.
Qed.

Lemma dict_set_fresh (d : list (pystr * json)) (k : pystr) (v : json) :
  ~ In k (map fst d) -> dict_set d k v = d ++ [(k, v)].
Proof.
  induction d as [|[k' v'] d IH]; intros Hn; cbn [dict_set app].
  - reflexivity.
  - cbn [map fst In] in Hn.
    destruct (pystr_eqb k' k) eqn:E.
    + apply pystr_eqb_eq in E. exfalso. apply Hn. now left.
    + rewrite IH; [reflexivity|]. intros Hin. apply Hn. now right.
Qed.

Lemma dict_of_pairs_acc (d acc : list (pystr * json)) :
  NoDup (map fst acc ++ map fst d) ->
  fold_left (fun d kv => dict_set d (fst kv) (snd kv)) d acc = acc ++ d.
Proof.
  revert acc. induction d as [|[k v] d IH]; intros acc Hnd; cbn [fold_left].
  - now rewrite List.app_nil_r.
  - cbn [fst snd map] in *.
    rewrite dict_set_fresh.
    + rewrite IH.
      * now rewrite <- app_assoc.
      * rewrite map_app. cbn [map fst]. rewrite <- app_assoc. exact Hnd.
    + apply NoDup_remove_2 in Hnd. intros Hin. apply Hnd.
      apply in_or_app. now left.
Qed.

Lemma dict_of_pairs_distinct (d : list (pystr * json)) :
  keys_distinct (map fst d) = true -> dict_of_pairs d = d.
Proof.
  intros H. unfold dict_of_pairs. rewrite dict_of_pairs_acc; [reflexivity|].
  now apply keys_distinct_NoDup.
Qed.

(** *** Unfolding [scan_once] at the first character *)

Lemma scan_once_string (fuel : nat) (r : pystr) :
  scan_once (S fuel) (34%N :: r)
  = match scanstring r with
    | Some (str, r') => Parsed (JStr str) r'
    | None => Invalid
    end.
Proof. reflexivity. Qed.

Lemma scan_once_array (fuel : nat) (r : pystr) :
  scan_once (S fuel) (91%N :: r)
  = match skip_ws r with
    | c1 :: r1 =>
        if N.eqb c1 93 then Parsed (JList []) r1
        else
          match array_items fuel (c1 :: r1) with
          | Parsed vs r2 => Parsed (JList vs) r2
          | Invalid => Invalid
          | Exhausted => Exhausted
          end
    | [] => Invalid
    end.
Proof. reflexivity. Qed.

Lemma scan_once_object (fuel : nat) (r : pystr) :
  scan_once (S fuel) (123%N :: r)
  = match skip_ws r with
    | c1 :: r1 =>
        if N.eqb c1 125 then Parsed (JDict []) r1
        else if N.eqb c1 34 then
          match object_pairs fuel r1 with
          | Parsed ps r2 => Parsed (JDict (dict_of_pairs ps)) r2
          | Invalid => Invalid
          | Exhausted => Exhausted
          end
        else Invalid
    | [] => Invalid
    end.
Proof. reflexivity. Qed.

Lemma scan_once_atom (fuel : nat) (c : N) (r : pystr) :
  N.eqb c 34 = false -> N.eqb c 123 = false -> N.eqb c 91 = false ->
  scan_once (S fuel) (c :: r) = scan_atom (c :: r).
Proof. intros H1 H2 H3. cbn [scan_once]. now rewrite H1, H2, H3. Qed.

Lemma array_items_step (fuel : nat) (s : pystr) :
  array_items (S fuel) s
  = match scan_once fuel s with
    | Parsed v r =>
        match skip_ws r with
        | c :: r1 =>
            if N.eqb c 93 then Parsed [v] r1
            else if N.eqb c 44 then
              match array_items fuel (skip_ws r1) with
              | Parsed vs r2 => Parsed (v :: vs) r2
              | Invalid => Invalid
              | Exhausted => Exhausted
              end
            else Invalid
        | [] => Invalid
        end
    | Invalid => Invalid
    | Exhausted => Exhausted
    end.
Proof. reflexivity. Qed.

Lemma object_pairs_step (fuel : nat) (s : pystr) :
  object_pairs (S fuel) s
  = match scanstring s with
    | None => Invalid
    | Some (key, r) =>
        match skip_ws r with
        | c :: r1 =>
            if N.eqb c 58 then
              match scan_once fuel (skip_ws r1) with
              | Parsed v r2 =>
                  match skip_ws r2 with
                  | c2 :: r3 =>
                      if N.eqb c2 125 then Parsed [(key, v)] r3
                      else if N.eqb c2 44 then
                        match skip_ws r3 with
                        | q :: r4 =>
                            if N.eqb q 34 then
                              match object_pairs fuel r4 with
                              | Parsed ps r5 => Parsed ((key, v) :: ps) r5
                              | Invalid => Invalid
                              | Exhausted => Exhausted
                              end
                            else Invalid
                        | [] => Invalid
                        end
                      else Invalid
                  | [] => Invalid
                  end
              | Invalid => Invalid
              | Exhausted => Exhausted
              end
            else Invalid
        | [] => Invalid
        end
    end.
Proof. reflexivity. Qed.

(** *** The recursion budget of [loads] is enough *)

Lemma skip_ws_length (s : pystr) : length (skip_ws s) <= length s.
Proof.
  induction s as [|c s IH]; cbn [skip_ws]; [apply le_n|].
  destruct (is_ws c); cbn [length]; lia.
Qed.

Lemma consr_inv (c : N) (x : option (pystr * pystr)) (k r : pystr) :
  consr c x = Some (k, r) -> exists k', x = Some (k', r).
Proof.
  destruct x as [[k' r']|]; cbn [consr]; [|discriminate].
  intros H. injection H as _ <-. now exists k'.
Qed.

(** A string literal ends strictly before the place it started. *)
Lemma scanstring_length (n : nat) :
  forall s k r,
    length s <= n -> scanstring s = Some (k, r) -> length r < length s.
Proof.
  induction n as [|n IH]; intros s k r Hn H.
  - destruct s; [discriminate | cbn [length] in Hn; lia].
  - assert (Hrec : forall c (s' : pystr) k0,
               length s' <= n -> consr c (scanstring s') = Some (k0, r) ->
               length r < length s').
    { intros c s' k0 Hs' Hc. apply consr_inv in Hc as (k' & Hc). eauto. }
    destruct s as [|c s]; [discriminate|]. cbn [length] in *.
    cbn [scanstring] in H.
    destruct (N.eqb c 34).
    { injection H as _ <-. lia. }
    destruct (N.eqb c 92).
    2:{ destruct (N.ltb c 32); [discriminate|].
        apply Hrec in H; lia. }
    destruct s as [|esc s]; [discriminate|]. cbn [length] in *.
    destruct (N.eqb esc 117).
    2:{ destruct (backslash esc); [|discriminate]. apply Hrec in H; lia. }
    destruct s as [|h1 [|h2 [|h3 [|h4 s]]]]; try discriminate.
    cbn [length] in *.
    destruct (unhex4 h1 h2 h3 h4) as [uni|]; [|discriminate].
    destruct (is_high_surrogate uni).
    2:{ apply Hrec in H; lia. }
    destruct s as [|b [|u [|g1 [|g2 [|g3 [|g4 s]]]]]];
      try (apply Hrec in H; cbn [length] in *; lia).
    cbn [length] in *.
    destruct (N.eqb b 92 && N.eqb u 117).
    2:{ apply Hrec in H; cbn [length] in *; lia. }
    destruct (unhex4 g1 g2 g3 g4) as [uni2|]; [|discriminate].
    destruct (is_low_surrogate uni2); apply Hrec in H; cbn [length] in *; lia.
Qed.

Lemma scan_digits_length (s : pystr) :
  length (snd (scan_digits s)) <= length s.
Proof.
  induction s as [|c s IH]; cbn [scan_digits]; [apply le_n|].
  destruct (digit_of c); [|apply le_n].
  destruct (scan_digits s) as [d r]. cbn [snd length] in *. lia.
Qed.

Lemma match_integer_length (s r : pystr) (i : Decimal.int) :
  match_integer s = Some (i, r) -> length r < length s.
Proof.
  unfold match_integer.
  assert (Hcore : forall (sign : Decimal.uint -> Decimal.int) (s1 : pystr),
             match s1 with
             | [] => None
             | c :: r0 =>
                 if N.eqb c 48 then Some (sign (Decimal.D0 Decimal.Nil), r0)
                 else if N.leb 49 c && N.leb c 57
                      then let (d, r') := scan_digits s1 in Some (sign d, r')
                      else None
             end = Some (i, r) -> length r < length s1).
  { intros sign [|c r0]; [discriminate|].
    destruct (N.eqb c 48).
    - intros H. injection H as _ <-. cbn [length]. lia.
    - destruct (N.leb 49 c && N.leb c 57) eqn:Hc; [|discriminate].
      cbn [scan_digits].
      assert (Hd : exists D, digit_of c = Some D).
      { unfold digit_of.
        repeat match goal with
               | |- exists D, (if ?b then _ else _) = Some D =>
                   destruct b eqn:?; [eexists; reflexivity|]
               end.
        exfalso. apply andb_true_iff in Hc as [H1 H2].
        apply N.leb_le in H1, H2.
        repeat match goal with
               | H : N.eqb c _ = false |- _ => apply N.eqb_neq in H
               end.
        lia. }
      destruct Hd as (D & ->).
      pose proof (scan_digits_length r0) as Hl.
      destruct (scan_digits r0) as [d r']. cbn [snd] in Hl.
      intros H. injection H as _ <-. cbn [length]. lia. }
  destruct s as [|c s0]; [discriminate|].
  destruct (N.eqb c 45).
  - intros H. apply (Hcore Decimal.Neg s0) in H. cbn [length]. lia.
  - exact (Hcore Decimal.Pos (c :: s0)).
Qed.

Lemma match_frac_length (s : pystr) : length (snd (match_frac s)) <= length s.
Proof.
  unfold match_frac. destruct s as [|c s]; [apply le_n|].
  destruct (N.eqb c 46); [|apply le_n].
  pose proof (scan_digits_length s) as H.
  destruct (scan_digits s) as [[] r]; cbn [snd length] in *; lia.
Qed.

Lemma match_exp_length (s : pystr) : length (snd (match_exp s)) <= length s.
Proof.
  unfold match_exp. destruct s as [|c s]; [apply le_n|].
  destruct (N.eqb c 101 || N.eqb c 69); [|apply le_n].
  assert (H : forall neg (r1 : pystr),
             length r1 <= length s ->
             length (snd (match scan_digits r1 with
                          | (Decimal.Nil, _) => (None, c :: s)
                          | (d, r') =>
                              (Some (if neg : bool then Decimal.Neg d
                                     else Decimal.Pos d), r')
                          end))
             <= length (c :: s)).
  { intros neg r1 Hr1. pose proof (scan_digits_length r1) as H.
    destruct (scan_digits r1) as [[] r]; cbn [snd length] in *; lia. }
  destruct s as [|sg s']; [exact (H false [] (le_n _))|].
  destruct (N.eqb sg 45); [apply (H true); cbn [length]; lia|].
  destruct (N.eqb sg 43); apply (H false); cbn [length]; lia.
Qed.

Lemma match_number_length (s r : pystr) (v : json) :
  match_number s = Some (v, r) -> length r < length s.
Proof.
  unfold match_number.
  destruct (match_integer s) as [[i r0]|] eqn:Hi; [|discriminate].
  apply match_integer_length in Hi.
  pose proof (match_frac_length r0) as Hf.
  destruct (match_frac r0) as [fr r1]. cbn [snd] in Hf.
  pose proof (match_exp_length r1) as Hx.
  destruct (match_exp r1) as [ex r2]. cbn [snd] in Hx.
  destruct fr, ex; intros H; injection H as _ <-; lia.
Qed.

Lemma strip_prefix_length (p s r : pystr) :
  strip_prefix p s = Some r -> length r + length p = length s.
Proof.
  revert s. induction p as [|x p IH]; intros s H; cbn [strip_prefix] in H.
  - injection H as <-. cbn [length]. lia.
  - destruct s as [|y s]; [discriminate|].
    destruct (N.eqb x y); [|discriminate].
    apply IH in H. cbn [length]. lia.
Qed.

Lemma scan_atom_length (s r : pystr) (v : json) :
  scan_atom s = Parsed v r -> length r < length s.
Proof.
  unfold scan_atom.
  repeat match goal with
         | |- match strip_prefix ?p s with _ => _ end = _ -> _ =>
             let E := fresh "E" in
             destruct (strip_prefix p s) eqn:E;
             [apply strip_prefix_length in E; cbn [length lit] in E;
              intros H; injection H as _ <-; cbn in E; lia|]
         | |- match match_number s with _ => _ end = _ -> _ =>
             let E := fresh "E" in
             destruct (match_number s) as [[? ?]|] eqn:E;
             [apply match_number_length in E;
              intros H; injection H as _ <-; exact E|]
         end.
  discriminate.
Qed.

(** Each scanner consumes at least one character when it succeeds. *)
Lemma scan_consumes (fuel : nat) :
  (forall s v r, scan_once fuel s = Parsed v r -> length r < length s)
  /\ (forall s vs r, array_items fuel s = Parsed vs r -> length r < length s)
  /\ (forall s ps r, object_pairs fuel s = Parsed ps r -> length r < length s).
Proof.
  induction fuel as [|fuel (IHv & IHa & IHo)];
    [repeat split; intros; discriminate|].
  repeat split.
  - intros s v r H. destruct s as [|c s]; [discriminate|].
    destruct (N.eqb c 34) eqn:E34.
    { apply N.eqb_eq in E34. subst c. rewrite scan_once_string in H.
      destruct (scanstring s) as [[str r']|] eqn:Es; [|discriminate].
      injection H as _ <-. apply (scanstring_length (length s)) in Es; [|apply le_n].
      cbn [length]. lia. }
    destruct (N.eqb c 123) eqn:E123.
    { apply N.eqb_eq in E123. subst c. rewrite scan_once_object in H.
      pose proof (skip_ws_length s) as Hw.
      destruct (skip_ws s) as [|c1 r1]; [discriminate|]. cbn [length] in *.
      destruct (N.eqb c1 125); [injection H as _ <-; lia|].
      destruct (N.eqb c1 34); [|discriminate].
      destruct (object_pairs fuel r1) as [ps r2| |] eqn:Eo; try discriminate.
      injection H as _ <-. apply IHo in Eo. lia. }
    destruct (N.eqb c 91) eqn:E91.
    { apply N.eqb_eq in E91. subst c. rewrite scan_once_array in H.
      pose proof (skip_ws_length s) as Hw.
      destruct (skip_ws s) as [|c1 r1]; [discriminate|]. cbn [length] in *.
      destruct (N.eqb c1 93); [injection H as _ <-; lia|].
      destruct (array_items fuel (c1 :: r1)) as [vs r2| |] eqn:Ea; try discriminate.
      injection H as _ <-. apply IHa in Ea. cbn [length] in Ea. lia. }
    rewrite scan_once_atom in H by assumption.
    now apply scan_atom_length in H.
  - intros s vs r H. rewrite array_items_step in H.
    destruct (scan_once fuel s) as [v r0| |] eqn:Ev; try discriminate.
    apply IHv in Ev. pose proof (skip_ws_length r0) as Hw.
    destruct (skip_ws r0) as [|c r1]; [discriminate|]. cbn [length] in *.
    destruct (N.eqb c 93); [injection H as _ <-; lia|].
    destruct (N.eqb c 44); [|discriminate].
    pose proof (skip_ws_length r1) as Hw1.
    destruct (array_items fuel (skip_ws r1)) as [vs' r2| |] eqn:Ea; try discriminate.
    injection H as _ <-. apply IHa in Ea. lia.
  - intros s ps r H. rewrite object_pairs_step in H.
    destruct (scanstring s) as [[key r0]|] eqn:Es; [|discriminate].
    apply (scanstring_length (length s)) in Es; [|apply le_n].
    pose proof (skip_ws_length r0) as Hw.
    destruct (skip_ws r0) as [|c r1]; [discriminate|]. cbn [length] in *.
    destruct (N.eqb c 58); [|discriminate].
    pose proof (skip_ws_length r1) as Hw1.
    destruct (scan_once fuel (skip_ws r1)) as [v r2| |] eqn:Ev; try discriminate.
    apply IHv in Ev. pose proof (skip_ws_length r2) as Hw2.
    destruct (skip_ws r2) as [|c2 r3]; [discriminate|]. cbn [length] in *.
    destruct (N.eqb c2 125); [injection H as _ <-; lia|].
    destruct (N.eqb c2 44); [|discriminate].
    pose proof (skip_ws_length r3) as Hw3.
    destruct (skip_ws r3) as [|q r4]; [discriminate|]. cbn [length] in *.
    destruct (N.eqb q 34); [|discriminate].
    destruct (object_pairs fuel r4) as [ps' r5| |] eqn:Eo; try discriminate.
    injection H as _ <-. apply IHo in Eo. lia.
Qed.

(** With a budget of twice the length of the text and one more,
    [scan_once] never stops for lack of budget: [Exhausted] is no outcome of
    [loads]. *)
Lemma scan_budget (fuel : nat) :
  (forall s, 2 * length s + 1 <= fuel -> scan_once fuel s <> Exhausted)
  /\ (forall s, 2 * length s + 2 <= fuel -> array_items fuel s <> Exhausted)
  /\ (forall s, 2 * length s + 2 <= fuel -> object_pairs fuel s <> Exhausted).
Proof.
  induction fuel as [|fuel (IHv & IHa & IHo)]; [repeat split; intros; lia|].
  destruct (scan_consumes fuel) as (Cv & Ca & Co).
  repeat split.
  - intros s Hf. destruct s as [|c s]; [discriminate|]. cbn [length] in Hf.
    destruct (N.eqb c 34) eqn:E34.
    { apply N.eqb_eq in E34. subst c. rewrite scan_once_string.
      destruct (scanstring s) as [[str r']|]; discriminate. }
    destruct (N.eqb c 123) eqn:E123.
    { apply N.eqb_eq in E123. subst c. rewrite scan_once_object.
      pose proof (skip_ws_length s) as Hw.
      destruct (skip_ws s) as [|c1 r1]; [discriminate|]. cbn [length] in *.
      destruct (N.eqb c1 125); [discriminate|].
      destruct (N.eqb c1 34); [|discriminate].
      specialize (IHo r1).
      destruct (object_pairs fuel r1); try discriminate.
      intros _. apply IHo; [lia | reflexivity]. }
    destruct (N.eqb c 91) eqn:E91.
    { apply N.eqb_eq in E91. subst c. rewrite scan_once_array.
      pose proof (skip_ws_length s) as Hw.
      destruct (skip_ws s) as [|c1 r1]; [discriminate|]. cbn [length] in *.
      destruct (N.eqb c1 93); [discriminate|].
      specialize (IHa (c1 :: r1)).
      destruct (array_items fuel (c1 :: r1)); try discriminate.
      intros _. apply IHa; [cbn [length]; lia | reflexivity]. }
    rewrite scan_once_atom by assumption. unfold scan_atom.
    repeat match goal with
           | |- match ?x with _ => _ end <> Exhausted => destruct x as [[? ?]|]
           | |- match ?x with _ => _ end <> Exhausted => destruct x
           end; discriminate.
  - intros s Hf. rewrite array_items_step.
    specialize (IHv s). specialize (Cv s).
    destruct (scan_once fuel s) as [v r0| |]; try discriminate.
    + specialize (Cv v r0 eq_refl). pose proof (skip_ws_length r0) as Hw.
      destruct (skip_ws r0) as [|c r1]; [discriminate|]. cbn [length] in *.
      destruct (N.eqb c 93); [discriminate|].
      destruct (N.eqb c 44); [|discriminate].
      pose proof (skip_ws_length r1) as Hw1.
      specialize (IHa (skip_ws r1)).
      destruct (array_items fuel (skip_ws r1)); try discriminate.
      intros _. apply IHa; [lia | reflexivity].
    + intros _. apply IHv; [lia | reflexivity].
  - intros s Hf. rewrite object_pairs_step.
    destruct (scanstring s) as [[key r0]|] eqn:Es; [|discriminate].
    apply (scanstring_length (length s)) in Es; [|apply le_n].
    pose proof (skip_ws_length r0) as Hw.
    destruct (skip_ws r0) as [|c r1]; [discriminate|]. cbn [length] in *.
    destruct (N.eqb c 58); [|discriminate].
    pose proof (skip_ws_length r1) as Hw1.
    specialize (IHv (skip_ws r1)). specialize (Cv (skip_ws r1)).
    destruct (scan_once fuel (skip_ws r1)) as [v r2| |]; try discriminate.
    + specialize (Cv v r2 eq_refl). pose proof (skip_ws_length r2) as Hw2.
      destruct (skip_ws r2) as [|c2 r3]; [discriminate|]. cbn [length] in *.
      destruct (N.eqb c2 125); [discriminate|].
      destruct (N.eqb c2 44); [|discriminate].
      pose proof (skip_ws_length r3) as Hw3.
      destruct (skip_ws r3) as [|q r4]; [discriminate|]. cbn [length] in *.
      destruct (N.eqb q 34); [|discriminate].
      specialize (IHo r4).
      destruct (object_pairs fuel r4); try discriminate.
      intros _. apply IHo; [lia | reflexivity].
    + intros _. apply IHv; [lia | reflexivity].
Qed.

Lemma scan_once_fuel (s : pystr) :
  scan_once (S (2 * length s)) (skip_ws s) <> Exhausted.
Proof.
  apply scan_budget. pose proof (skip_ws_length s). lia.
Qed.

(** *** [json.loads] undoes [json.dumps] *)

Lemma skip_ws_nonws (c : N) (r : pystr) :
  is_ws c = false -> skip_ws (c :: r) = c :: r.
Proof. intros H. cbn [skip_ws]. now rewrite H. Qed.

Lemma ends_token_cases (rest : pystr) :
  ends_token rest = true ->
  rest = [] \/ exists c r, rest = c :: r /\ (c = 44 \/ c = 93 \/ c = 125)%N.
Proof.
  destruct rest as [|c r]; [now left|]. cbn [ends_token]. intros H. right.
  exists c, r. split; [reflexivity|].
  apply orb_true_iff in H as [H|H]; [apply orb_true_iff in H as [H|H]|];
    apply N.eqb_eq in H; auto.
Qed.

Lemma ends_token_not_digit (rest : pystr) :
  ends_token rest = true -> not_digit_head rest.
Proof.
  intros H. destruct (ends_token_cases rest H) as [->|(c & r & -> & [->|[->| ->]])];
    reflexivity.
Qed.

Lemma ends_token_skip_ws (rest : pystr) :
  ends_token rest = true -> skip_ws rest = rest.
Proof.
  intros H. destruct (ends_token_cases rest H) as [->|(c & r & -> & [->|[->| ->]])];
    reflexivity.
Qed.

Lemma ends_token_no_frac_exp (rest : pystr) :
  ends_token rest = true ->
  match_frac rest = (None, rest) /\ match_exp rest = (None, rest).
Proof.
  intros H. destruct (ends_token_cases rest H) as [->|(c & r & -> & [->|[->| ->]])];
    split; reflexivity.
Qed.

Lemma repr_int_head (z : Z) :
  exists c r, repr_int z = c :: r /\ (c = 45 \/ 48 <= c <= 57)%N.
Proof.
  destruct z as [|p|p].
  - exists 48%N, []. split; [reflexivity | lia].
  - destruct (pos_to_uint_head p) as (c & r & E & _ & _ & H).
    exists c, r. split; [exact E|]. apply andb_true_iff in H as [H1 H2].
    apply N.leb_le in H1, H2. lia.
  - eexists _, _. split; [reflexivity | now left].
Qed.

Lemma strip_prefix_mismatch (x c : N) (p r : pystr) :
  N.eqb x c = false -> strip_prefix (x :: p) (c :: r) = None.
Proof. intros H. cbn [strip_prefix]. now rewrite H. Qed.

Lemma scan_atom_int (z : Z) (rest : pystr) :
  ends_token rest = true ->
  scan_atom (repr_int z ++ rest) = Parsed (JInt z) rest.
Proof.
  intros He.
  destruct (repr_int_head z) as (c & r & E & Hc).
  destruct (match_integer_repr_int z rest (ends_token_not_digit _ He))
    as (i & Hi & Hv).
  destruct (ends_token_no_frac_exp _ He) as [Hf Hx].
  assert (Hn : match_number (repr_int z ++ rest) = Some (JInt z, rest)).
  { unfold match_number. now rewrite Hi, Hf, Hx, Hv. }
  unfold scan_atom. rewrite Hn. rewrite E. cbn [app].
  change (lit "null") with (110%N :: lit "ull").
  change (lit "true") with (116%N :: lit "rue").
  change (lit "false") with (102%N :: lit "alse").
  rewrite !strip_prefix_mismatch by (apply N.eqb_neq; lia).
  reflexivity.
Qed.

Lemma size_pos (v : json) : 1 <= size v.
Proof. destruct v; cbn [size]; lia. Qed.

Section RoundTrip.

Variable fs : float_literal -> pystr.

(** A serialized document starts with a character that is neither
    whitespace nor a closing bracket. *)
Lemma dumps_head (v : json) :
  valid v = true ->
  exists c r, dumps fs v = c :: r /\ is_ws c = false /\ N.eqb c 93 = false.
Proof.
  intros Hv. destruct v as [|[|]|z|f|s|l|d]; try discriminate;
    try (eexists _, _; repeat split; reflexivity).
  destruct (repr_int_head z) as (c & r & E & Hc).
  exists c, r. cbn [dumps]. split; [exact E|].
  unfold is_ws.
  destruct (N.eqb_spec c 32), (N.eqb_spec c 9), (N.eqb_spec c 10),
    (N.eqb_spec c 13), (N.eqb_spec c 93);
    solve [split; reflexivity | lia].
Qed.

Lemma dumps_list_eq (l : list json) (rest : pystr) :
  dumps fs (JList l) ++ rest
  = 91%N :: (join (lit ", ") (map (dumps fs) l) ++ 93%N :: rest).
Proof.
  cbn [dumps]. change (lit "[") with [91%N]. change (lit "]") with [93%N].
  cbn [app]. now rewrite <- List.app_assoc.
Qed.

Lemma dumps_dict_eq (d : list (pystr * json)) (rest : pystr) :
  dumps fs (JDict d) ++ rest
  = 123%N :: (join (lit ", ") (map (entry fs) d) ++ 125%N :: rest).
Proof.
  cbn [dumps]. change (lit "{") with [123%N]. change (lit "}") with [125%N].
  cbn [app]. now rewrite <- List.app_assoc.
Qed.

Lemma join_more (p q : pystr) (ps : list pystr) (rest : pystr) :
  join (lit ", ") (p :: q :: ps) ++ rest
  = p ++ 44%N :: 32%N :: (join (lit ", ") (q :: ps) ++ rest).
Proof.
  cbn [join]. rewrite <- !List.app_assoc. reflexivity.
Qed.

Lemma join_dumps_head (v : json) (ps : list pystr) (rest : pystr) :
  valid v = true ->
  exists c r, join (lit ", ") (dumps fs v :: ps) ++ rest = c :: r
              /\ is_ws c = false /\ N.eqb c 93 = false.
Proof.
  intros Hv. destruct (dumps_head v Hv) as (c & r & E & H1 & H2).
  destruct ps as [|q ps].
  - cbn [join]. rewrite E. now eexists _, _.
  - rewrite join_more, E. now eexists _, _.
Qed.

Section Loops.

Variable n : nat.
Hypothesis IH :
  forall m, m < n -> forall v rest,
    size v <= m -> valid v = true -> ends_token rest = true ->
    scan_once m (dumps fs v ++ rest) = Parsed v rest.

Lemma array_items_join (l : list json) :
  forall f rest,
    l <> [] -> f < n ->
    list_sum (map (fun x => S (size x)) l) <= f ->
    forallb valid l = true ->
    array_items f (join (lit ", ") (map (dumps fs) l) ++ 93%N :: rest)
    = Parsed l rest.
Proof.
  induction l as [|x l IHl]; intros f rest Hne Hf Hsz Hv; [contradiction|].
  cbn [map list_sum fold_right forallb] in Hsz, Hv.
  apply andb_true_iff in Hv as [Hx Hl].
  destruct f as [|f]; [lia|].
  rewrite array_items_step.
  destruct l as [|y l].
  - cbn [map join].
    rewrite IH by (try reflexivity; try assumption; lia).
    reflexivity.
  - cbn [map]. rewrite join_more.
    rewrite IH by (try reflexivity; try assumption; lia).
    change (skip_ws (44%N :: 32%N :: ?r)) with (44%N :: 32%N :: r).
    cbv iota. change (N.eqb 44 93) with false. change (N.eqb 44 44) with true.
    cbv iota.
    assert (Hy : valid y = true).
    { cbn [forallb] in Hl. now apply andb_true_iff in Hl as [Hy _]. }
    destruct (join_dumps_head y (map (dumps fs) l) (93%N :: rest) Hy)
      as (c & r & E & Hc & _).
    change (skip_ws (32%N :: ?r)) with (skip_ws r).
    rewrite E, (skip_ws_nonws _ _ Hc), <- E.
    change (dumps fs y :: map (dumps fs) l) with (map (dumps fs) (y :: l)).
    rewrite IHl by (try discriminate; try assumption; cbn [map list_sum fold_right] in *; lia).
    reflexivity.
Qed.

Lemma entry_eq (k : pystr) (v : json) (rest : pystr) :
  entry fs (k, v) ++ rest
  = 34%N :: (flat_map escape_char k ++ 34%N :: 58%N :: 32%N :: (dumps fs v ++ rest)).
Proof.
  unfold entry, encode_basestring_ascii. cbn [fst snd].
  change (lit ": ") with [58%N; 32%N]. cbn [app].
  rewrite <- !List.app_assoc. reflexivity.
Qed.

Lemma object_pairs_join (d : list (pystr * json)) :
  forall f rest,
    d <> [] -> f < n ->
    list_sum (map (fun kv => S (size (snd kv))) d) <= f ->
    forallb (fun kv => str_ok (fst kv) && valid (snd kv)) d = true ->
    exists r1,
      join (lit ", ") (map (entry fs) d) ++ 125%N :: rest = 34%N :: r1
      /\ object_pairs f r1 = Parsed d rest.
Proof.
  induction d as [|[k v] d IHd]; intros f rest Hne Hf Hsz Hv; [contradiction|].
  cbn [map list_sum fold_right forallb fst snd] in Hsz, Hv.
  apply andb_true_iff in Hv as [Hkv Hd].
  apply andb_true_iff in Hkv as [Hk Hval].
  destruct f as [|f]; [lia|].
  destruct (dumps_head v Hval) as (cv & rv & Ev & Hcv & _).
  destruct d as [|kv2 d].
  - cbn [map join]. rewrite entry_eq. eexists. split; [reflexivity|].
    rewrite object_pairs_step, (scanstring_escape k _ Hk).
    change (skip_ws (58%N :: ?r)) with (58%N :: r). cbv iota.
    change (N.eqb 58 58) with true. cbv iota.
    change (skip_ws (32%N :: ?r)) with (skip_ws r).
    rewrite Ev. cbn [app]. rewrite (skip_ws_nonws _ _ Hcv).
    change (cv :: rv ++ ?r) with ((cv :: rv) ++ r). rewrite <- Ev.
    rewrite IH by (try reflexivity; try assumption; lia).
    reflexivity.
  - destruct (IHd f rest) as (r1 & E1 & Hp);
      [discriminate | clear - Hf; lia
      | clear - Hsz; cbn [map list_sum fold_right] in *; lia | assumption |].
    cbn [map]. rewrite join_more. change (entry fs kv2 :: map (entry fs) d) with (map (entry fs) (kv2 :: d)).
    rewrite E1, entry_eq. eexists. split; [reflexivity|].
    rewrite object_pairs_step, (scanstring_escape k _ Hk).
    change (skip_ws (58%N :: ?r)) with (58%N :: r). cbv iota.
    change (N.eqb 58 58) with true. cbv iota.
    change (skip_ws (32%N :: ?r)) with (skip_ws r).
    rewrite Ev. cbn [app]. rewrite (skip_ws_nonws _ _ Hcv).
    change (cv :: rv ++ ?r) with ((cv :: rv) ++ r). rewrite <- Ev.
    rewrite IH by (try reflexivity; try assumption; lia).
    change (skip_ws (44%N :: 32%N :: 34%N :: ?r)) with (44%N :: 32%N :: 34%N :: r).
    cbv iota. change (N.eqb 44 125) with false. change (N.eqb 44 44) with true.
    cbv iota.
    change (skip_ws (32%N :: 34%N :: ?r)) with (34%N :: r). cbv iota.
    change (N.eqb 34 34) with true. cbv iota.
    rewrite Hp. reflexivity.
Qed.

End Loops.

(** Reading back a serialized document, with any budget that covers its
    size. *)
Lemma scan_once_dumps (fuel : nat) :
  forall v rest,
    size v <= fuel -> valid v = true -> ends_token rest = true ->
    scan_once fuel (dumps fs v ++ rest) = Parsed v rest.
Proof.
  induction fuel as [fuel IH] using lt_wf_ind.
  intros v rest Hsz Hv He.
  pose proof (size_pos v) as Hpos.
  destruct fuel as [|f]; [lia|].
  destruct v as [|[|]|z|fl|s|l|d]; try discriminate; try reflexivity.
  - (* int *)
    cbn [dumps]. destruct (repr_int_head z) as (c & r & E & Hc).
    rewrite E. cbn [app]. rewrite scan_once_atom by (apply N.eqb_neq; lia).
    change (c :: r ++ rest) with ((c :: r) ++ rest). rewrite <- E.
    now apply scan_atom_int.
  - (* str *)
    cbn [dumps]. cbn [valid] in Hv.
    destruct (scanstring_encode s rest Hv) as (r & E & Hs).
    now rewrite E, scan_once_string, Hs.
  - (* list *)
    rewrite dumps_list_eq, scan_once_array. cbn [valid size] in Hv, Hsz.
    destruct l as [|x l]; [reflexivity|].
    assert (Hx : valid x = true).
    { cbn [forallb] in Hv. now apply andb_true_iff in Hv as [Hx _]. }
    cbn [map].
    destruct (join_dumps_head x (map (dumps fs) l) (93%N :: rest) Hx)
      as (c & r & E & Hc & H93).
    rewrite E, (skip_ws_nonws _ _ Hc), H93, <- E.
    change (dumps fs x :: map (dumps fs) l) with (map (dumps fs) (x :: l)).
    rewrite (array_items_join (S f) IH)
      by (try discriminate; try assumption; cbn [map list_sum fold_right] in *; lia).
    reflexivity.
  - (* dict *)
    rewrite dumps_dict_eq, scan_once_object. cbn [valid size] in Hv, Hsz.
    apply andb_true_iff in Hv as [Hk Hd].
    destruct d as [|kv d]; [reflexivity|].
    destruct (object_pairs_join (S f) IH (kv :: d) f rest) as (r1 & E & Hp);
      [discriminate | clear; lia
      | clear - Hsz; cbn [map list_sum fold_right] in *; lia | assumption |].
    rewrite E. change (skip_ws (34%N :: r1)) with (34%N :: r1). cbv iota.
    change (N.eqb 34 125) with false. change (N.eqb 34 34) with true. cbv iota.
    rewrite Hp, (dict_of_pairs_distinct _ Hk). reflexivity.
Qed.

End RoundTrip.

(** *** Induction over documents *)

Lemma json_induction (P : json -> Prop) :
  P JNull ->
  (forall b, P (JBool b)) ->
  (forall z, P (JInt z)) ->
  (forall f, P (JFloat f)) ->
  (forall s, P (JStr s)) ->
  (forall l, Forall P l -> P (JList l)) ->
  (forall d, Forall (fun kv => P (snd kv)) d -> P (JDict d)) ->
  forall v, P v.
Proof.
  intros Hnull Hbool Hint Hfloat Hstr Hlist Hdict.
  fix IH 1. intros [|b|z|f|s|l|d].
  - exact Hnull.
  - apply Hbool.
  - apply Hint.
  - apply Hfloat.
  - apply Hstr.
  - apply Hlist. revert l. fix IHl 1. intros [|x l]; constructor.
    + apply IH.
    + apply IHl.
  - apply Hdict. revert d. fix IHd 1. intros [|[k x] d]; constructor.
    + apply IH.
    + apply IHd.
Qed.

(** *** Size and alphabet of a serialized document *)

Lemma length_join_map {A} (f : A -> pystr) (g : A -> nat) (l : list A) :
  Forall (fun x => g x <= length (f x)) l ->
  list_sum (map (fun x => S (g x)) l) <= S (length (join (lit ", ") (map f l))).
Proof.
  induction 1 as [|x l Hx Hl IH]; cbn [map list_sum fold_right].
  - lia.
  - destruct l as [|y l].
    + cbn [map join list_sum fold_right]. clear - Hx. lia.
    + cbn [map] in *.
      change (join (lit ", ") (f x :: f y :: map f l))
        with (f x ++ lit ", " ++ join (lit ", ") (f y :: map f l)).
      rewrite !length_app. change (length (lit ", ")) with 2.
      cbn [list_sum fold_right] in *. clear - Hx IH. lia.
Qed.

Lemma ascii_only_app (a b : pystr) :
  ascii_only a -> ascii_only b -> ascii_only (a ++ b).
Proof. intros Ha Hb. apply Forall_app. now split. Qed.

Lemma ascii_only_join {A} (f : A -> pystr) (l : list A) :
  Forall (fun x => ascii_only (f x)) l ->
  ascii_only (join (lit ", ") (map f l)).
Proof.
  induction 1 as [|x l Hx Hl IH]; cbn [map join].
  - constructor.
  - destruct l as [|y l]; [exact Hx|].
    apply ascii_only_app; [exact Hx|].
    apply ascii_only_app; [|exact IH].
    repeat constructor.
Qed.

Lemma ascii_only_uint (d : Decimal.uint) : ascii_only (uint_chars d).
Proof. induction d; cbn [uint_chars]; constructor; (reflexivity || assumption). Qed.

Lemma ascii_only_repr_int (z : Z) : ascii_only (repr_int z).
Proof.
  destruct z; cbn [repr_int]; try apply ascii_only_uint.
  constructor; [reflexivity | apply ascii_only_uint].
Qed.

Lemma hex_char_ascii (d : N) : (d < 16)%N -> (hex_char d < 128)%N.
Proof.
  intros H. unfold hex_char. destruct (N.ltb d 10); lia.
Qed.

Lemma ascii_only_hex4 (n : N) : ascii_only (hex4 n).
Proof.
  unfold hex4.
  repeat constructor; apply hex_char_ascii; apply N.mod_lt; discriminate.
Qed.

Lemma ascii_only_escape_char (c : N) : ascii_only (escape_char c).
Proof.
  unfold escape_char.
  repeat match goal with
         | |- ascii_only (if N.eqb c ?k then _ else _) =>
             destruct (N.eqb c k); [repeat constructor|]
         end.
  destruct (N.leb_spec 32 c); cbn [andb].
  - destruct (N.leb_spec c 126); cbn [andb].
    + repeat constructor. lia.
    + destruct (N.ltb c 65536).
      * constructor; [reflexivity|]. constructor; [reflexivity|]. apply ascii_only_hex4.
      * apply ascii_only_app;
          (constructor; [reflexivity|]; constructor; [reflexivity|]; apply ascii_only_hex4).
  - destruct (N.ltb c 65536).
    + constructor; [reflexivity|]. constructor; [reflexivity|]. apply ascii_only_hex4.
    + apply ascii_only_app;
        (constructor; [reflexivity|]; constructor; [reflexivity|]; apply ascii_only_hex4).
Qed.

Lemma ascii_only_encode_basestring (s : pystr) :
  ascii_only (encode_basestring_ascii s).
Proof.
  unfold encode_basestring_ascii. constructor; [reflexivity|].
  apply ascii_only_app; [|repeat constructor].
  induction s as [|c s IH]; cbn [flat_map]; [constructor|].
  apply ascii_only_app; [apply ascii_only_escape_char | exact IH].
Qed.

Lemma length_encode_basestring (s : pystr) :
  2 <= length (encode_basestring_ascii s).
Proof.
  unfold encode_basestring_ascii. cbn [length]. rewrite length_app. cbn [length]. lia.
Qed.

Section Serialized.

Variable fs : float_literal -> pystr.

(** Every node of a document takes at least one character. *)
Lemma size_le_length (v : json) :
  valid v = true -> size v <= length (dumps fs v).
Proof.
  induction v as [|b|z|f|s|l IH|d IH] using json_induction; intros Hv;
    try discriminate.
  - cbn. lia.
  - destruct b; cbn; lia.
  - cbn [dumps size]. destruct (repr_int_head z) as (c & r & -> & _). cbn. lia.
  - cbn [dumps size]. pose proof (length_encode_basestring s). lia.
  - cbn [dumps size valid] in *.
    change (lit "[") with [91%N]. change (lit "]") with [93%N].
    cbn [app length]. rewrite length_app. cbn [length].
    assert (H : Forall (fun x => size x <= length (dumps fs x)) l).
    { apply Forall_forall. intros x Hx.
      rewrite Forall_forall in IH. apply IH; [exact Hx|].
      rewrite forallb_forall in Hv. now apply Hv. }
    pose proof (length_join_map (dumps fs) size l H). lia.
  - cbn [dumps size valid] in *.
    apply andb_true_iff in Hv as [_ Hv].
    change (lit "{") with [123%N]. change (lit "}") with [125%N].
    cbn [app length]. rewrite length_app. cbn [length].
    assert (H : Forall (fun kv => size (snd kv)
                          <= length (encode_basestring_ascii (fst kv) ++ lit ": "
                                     ++ dumps fs (snd kv))) d).
    { apply Forall_forall. intros kv Hkv.
      rewrite Forall_forall in IH. rewrite !length_app.
      rewrite forallb_forall in Hv. specialize (Hv kv Hkv).
      apply andb_true_iff in Hv as [_ Hv]. specialize (IH kv Hkv Hv). lia. }
    pose proof (length_join_map _ (fun kv => size (snd kv)) d H) as Hj.
    cbv beta in Hj. clear - Hj.
    apply le_n_S. eapply Nat.le_trans; [exact Hj|]. rewrite Nat.add_1_r. apply le_n.
Qed.


(** [json.loads(json.dumps(v))] is [v]. *)
Lemma loads_dumps (v : json) :
  valid v = true -> loads (dumps fs v) = Some v.
Proof.
  intros Hv. unfold loads.
  destruct (dumps_head fs v Hv) as (c & r & E & Hc & _).
  rewrite E at 2. rewrite (skip_ws_nonws _ _ Hc), <- E.
  rewrite <- (List.app_nil_r (dumps fs v)) at 2.
  rewrite scan_once_dumps; [reflexivity | | exact Hv | reflexivity].
  pose proof (size_le_length v Hv). lia.
Qed.

End Serialized.

(* ------------------------------------------------------------------ *)
(** ** Properties of the byte layer *)

Lemma byte_of_to_N (c : N) : (c < 256)%N -> Byte.to_N (byte_of c) = c.
Proof.
  intros H. unfold byte_of.
  pose proof (Byte.to_of_N_option_map c) as E.
  destruct (Byte.of_N c) as [b|] eqn:Eb; cbn [option_map] in E.
  - now apply Byte.to_of_N.
  - destruct (N.leb_spec c 255); [discriminate | lia].
Qed.

Lemma encode_ascii (s : pystr) :
  ascii_only s -> Utf8.encode s = Some (map byte_of s).
Proof.
  induction 1 as [|c s Hc Hs IH]; [reflexivity|].
  cbn [Utf8.encode map]. rewrite IH. unfold encode_char.
  apply N.ltb_lt in Hc. now rewrite Hc.
Qed.


Lemma le_value_le_bytes (n : N) :
  (n < 2 ^ 32)%N -> le_value (le_bytes n) = n.
Proof.
  intros H. change (2 ^ 32)%N with 4294967296%N in H.
  unfold le_bytes, le_value. cbn [fold_right].
  rewrite !byte_of_to_N by (apply N.mod_lt; discriminate).
  clear - H. zify. Z.to_euclidean_division_equations. lia.
Qed.

Lemma unpack_pack (bo : byteorder) (n : N) :
  (n < 2 ^ 32)%N ->
  exists b, Struct.pack bo n = Some b /\ length b = 4
            /\ Struct.unpack bo b = Some n.
Proof.
  intros H. unfold Struct.pack. apply N.ltb_lt in H. rewrite H.
  apply N.ltb_lt in H.
  destruct bo; eexists; (split; [reflexivity|]); (split; [reflexivity|]);
    unfold Struct.unpack.
  - cbn [length Nat.eqb le_bytes]. now rewrite le_value_le_bytes.
  - rewrite length_rev. cbn [length Nat.eqb le_bytes].
    rewrite rev_involutive. now rewrite le_value_le_bytes.
Qed.

Lemma pack_too_big (bo : byteorder) (n : N) :
  (2 ^ 32 <= n)%N -> Struct.pack bo n = None.
Proof.
  intros H. unfold Struct.pack. apply N.ltb_ge in H. now rewrite H.
Qed.

Lemma unpack_length (bo : byteorder) (buf : bytes) (n : N) :
  Struct.unpack bo buf = Some n -> length buf = 4.
Proof.
  unfold Struct.unpack. destruct (Nat.eqb_spec (length buf) 4); [auto | discriminate].
Qed.

Lemma unpack_short (bo : byteorder) (buf : bytes) :
  length buf <> 4 -> Struct.unpack bo buf = None.
Proof.
  intros H. unfold Struct.unpack.
  destruct (Nat.eqb_spec (length buf) 4); [contradiction | reflexivity].
Qed.

(* ------------------------------------------------------------------ *)
(** ** The methods of the host, one by one *)

Lemma logs_only_refl {P : Type} (w : Process P) : logs_only w w.
Proof. now repeat split. Qed.

Lemma logs_only_trans {P : Type} (w1 w2 w3 : Process P) :
  logs_only w1 w2 -> logs_only w2 w3 -> logs_only w1 w3.
Proof.
  intros (A1 & A2 & A3) (B1 & B2 & B3). repeat split; congruence.
Qed.

Section Methods.

Variable P : Type.
Variable env : Env.

Lemma log_run (message : pystr) (level : log_level) (w : Process P) :
  fst (log env message level w) = Return tt
  /\ logs_only w (snd (log env message level w)).
Proof.
  unfold log. destruct (LOG_ENABLED env); split; try reflexivity;
    repeat split.
Qed.

Lemma log_eq (message : pystr) (level : log_level) (w : Process P) :
  log env message level w = (Return tt, snd (log env message level w)).
Proof. unfold log. now destruct (LOG_ENABLED env). Qed.

Lemma log_record (message : pystr) (level : log_level) (w : Process P) :
  exists lg,
    log env message level w
    = (Return tt,
       {| self := self w; stdin := stdin w; stdout := stdout w; logfile := lg |}).
Proof.
  unfold log. destruct w as [host input output records]. cbn [self stdin stdout logfile].
  destruct (LOG_ENABLED env); now eexists.
Qed.

Lemma py_get_dict (d : list (pystr * json)) (k : pystr) (default : json)
      (w : Process P) :
  py_get (JDict d) k default w = (Return (dict_get d k default), w).
Proof. reflexivity. Qed.

Lemma py_get_state (obj : json) (k : pystr) (default : json) (w : Process P) :
  snd (py_get obj k default w) = w.
Proof. now destruct obj. Qed.

Lemma py_get_non_dict (obj : json) (k : pystr) (default : json) (w : Process P) :
  (forall d, obj <> JDict d) ->
  exists e, py_get obj k default w = (Raise e, w).
Proof.
  intros H. destruct obj; try (eexists; reflexivity).
  now contradiction (H d).
Qed.

(** *** Handlers *)

Lemma handle_test_connection_state (data : json) (w : Process P) :
  snd (handle_test_connection env data w) = w.
Proof. reflexivity. Qed.

Lemma handle_get_status_state (data : json) (w : Process P) :
  snd (handle_get_status data w) = w.
Proof. reflexivity. Qed.

Lemma handle_get_credentials_state (data : json) (w : Process P) :
  logs_only w (snd (handle_get_credentials env data w)).
Proof.
  unfold handle_get_credentials.
  destruct (PYKEEPASS_AVAILABLE env); cbn [negb]; [|apply logs_only_refl].
  unfold bind. destruct data; try apply logs_only_refl.
  rewrite py_get_dict.
  destruct (truthy _); cbn [negb]; [|apply logs_only_refl].
  rewrite log_eq. apply log_run.
Qed.

Lemma route_state (action data : json) (w : Process P) :
  logs_only w (snd (route env action data w)).
Proof.
  unfold route.
  destruct (eq_str action _); [apply logs_only_refl|].
  destruct (eq_str action _); [apply handle_get_credentials_state|].
  destruct (eq_str action _); apply logs_only_refl.
Qed.

(** *** [handle_message] *)

(** On a mapping, [handle_message] always returns a response: the success
    envelope around the handler's result, or the error envelope around the
    exception that left the routing. *)
Lemma handle_message_dict (m : list (pystr * json)) (w : Process P) :
  let message_id := dict_get m (lit "id") JNull in
  let action := dict_get m (lit "action") JNull in
  let data := dict_get m (lit "data") (JDict []) in
  let w1 := snd (log env (lit "Handling action: " ++ fmt env action) Info w) in
  handle_message env (JDict m) w
  = match route env action data w1 with
    | (Return result, w2) =>
        (Return (success_response message_id action result), w2)
    | (Raise e, w2) =>
        (Return (error_response env message_id action e),
         snd (log env (lit "Error handling action " ++ fmt env action
                       ++ lit ": " ++ exn_str env e) Error w2))
    end.
Proof.
  intros message_id action data w1. unfold handle_message.
  unfold bind at 1. rewrite py_get_dict.
  unfold bind at 1. rewrite py_get_dict.
  unfold bind at 1. rewrite py_get_dict.
  unfold bind at 1. rewrite log_eq. fold message_id action data w1.
  unfold try_except, bind.
  destruct (route env action data w1) as [[result|e] w2]; [reflexivity|].
  rewrite log_eq. reflexivity.
Qed.

Lemma handle_message_non_dict (message : json) (w : Process P) :
  (forall m, message <> JDict m) ->
  exists e, handle_message env message w = (Raise e, w).
Proof.
  intros H. unfold handle_message. unfold bind at 1.
  destruct (py_get_non_dict message (lit "id") JNull w H) as (e & ->).
  now exists e.
Qed.

Lemma handle_message_state (message : json) (w : Process P) :
  logs_only w (snd (handle_message env message w)).
Proof.
  destruct message as [|b|z|f|s|l|m];
    try (match goal with
         | |- context [handle_message env ?msg w] =>
             destruct (handle_message_non_dict msg w) as (e & ->);
             [discriminate | apply logs_only_refl]
         end).
  rewrite handle_message_dict.
  set (w1 := snd (log env _ Info w)).
  assert (H1 : logs_only w w1) by apply log_run.
  pose proof (route_state (dict_get m (lit "action") JNull)
                (dict_get m (lit "data") (JDict [])) w1) as H2.
  destruct (route env _ _ w1) as [[result|e] w2]; cbn [snd] in *.
  - now apply logs_only_trans with w1.
  - apply logs_only_trans with w2; [now apply logs_only_trans with w1|].
    apply log_run.
Qed.

(** *** [read_message] *)

Lemma read_message_eq (w : Process P) :
  exists lg,
    read_message env w
    = (Return (read_message_value (native_byteorder env) (stdin w)),
       {| self := self w;
          stdin := read_message_rest (native_byteorder env) (stdin w);
          stdout := stdout w; logfile := lg |}).
Proof.
  cbv [read_message try_except bind stdin_read ret struct_unpack
       bytes_decode json_loads raise log read_message_value read_message_rest].
  cbn [self stdin stdout logfile].
  destruct (firstn 4 (stdin w)) as [|b0 raw] eqn:Eraw; [now eexists|].
  destruct (Struct.unpack (native_byteorder env) (b0 :: raw)) as [n|];
    cbn [self stdin stdout logfile].
  - destruct (Utf8.decode _) as [s|]; cbn [self stdin stdout logfile].
    + destruct (Json.loads s) as [v|]; [now eexists|].
      destruct (LOG_ENABLED env); now eexists.
    + destruct (LOG_ENABLED env); now eexists.
  - destruct (LOG_ENABLED env); now eexists.
Qed.

Lemma read_message_run (w : Process P) :
  fst (read_message env w)
  = Return (read_message_value (native_byteorder env) (stdin w))
  /\ self (snd (read_message env w)) = self w
  /\ stdout (snd (read_message env w)) = stdout w
  /\ stdin (snd (read_message env w))
     = read_message_rest (native_byteorder env) (stdin w).
Proof.
  destruct (read_message_eq w) as (lg & ->). now repeat split.
Qed.

(** [read_message] never raises. *)
Lemma read_message_returns (w : Process P) :
  read_message env w
  = (Return (read_message_value (native_byteorder env) (stdin w)),
     snd (read_message env w)).
Proof.
  destruct (read_message_run w) as (H & _).
  destruct (read_message env w) as [r w']. cbn [fst snd] in *. now subst.
Qed.

(** A message that is not [None] took at least the four bytes of its
    length prefix off the stream. *)
Lemma read_message_consumes (bo : byteorder) (input : bytes) :
  read_message_value bo input <> JNull ->
  length (read_message_rest bo input) < length input.
Proof.
  unfold read_message_value, read_message_rest.
  destruct (firstn 4 input) as [|b0 raw] eqn:Eraw; [congruence|].
  destruct (Struct.unpack bo (b0 :: raw)) as [n|] eqn:En; [|congruence].
  intros _. apply unpack_length in En. rewrite <- Eraw in En.
  rewrite length_firstn in En. rewrite !length_skipn. lia.
Qed.

(** *** [send_message] *)

Lemma send_message_eq (message : json) (w : Process P) :
  exists lg,
    send_message env message w
    = (Return tt,
       {| self := self w; stdin := stdin w;
          stdout := stdout w
                    ++ match frame_of env message with Some f => f | None => [] end;
          logfile := lg |}).
Proof.
  destruct w as [host input output records].
  cbv [send_message try_except bind str_encode struct_pack stdout_write
       stdout_flush ret raise log frame_of].
  destruct (Utf8.encode (json_dumps env message)) as [encoded|];
    cbn [self stdin stdout logfile].
  - destruct (Struct.pack _ _) as [prefix|]; cbn [self stdin stdout logfile].
    + rewrite <- List.app_assoc. now eexists.
    + rewrite List.app_nil_r. destruct (LOG_ENABLED env); now eexists.
  - rewrite List.app_nil_r. destruct (LOG_ENABLED env); now eexists.
Qed.

Lemma send_message_run (message : json) (w : Process P) :
  fst (send_message env message w) = Return tt
  /\ self (snd (send_message env message w)) = self w
  /\ stdin (snd (send_message env message w)) = stdin w
  /\ stdout (snd (send_message env message w))
     = stdout w ++ match frame_of env message with Some f => f | None => [] end.
Proof.
  destruct (send_message_eq message w) as (lg & ->). now repeat split.
Qed.

Lemma send_message_returns (message : json) (w : Process P) :
  send_message env message w = (Return tt, snd (send_message env message w)).
Proof.
  destruct (send_message_run message w) as (H & _).
  destruct (send_message env message w) as [r w']. cbn [fst snd] in *. now subst.
Qed.

End Methods.

(* ------------------------------------------------------------------ *)
(** ** The session loop *)

Section Loop.

Variable P : Type.
Variable env : Env.

Lemma loop_body_eq (w : Process P) :
  loop_body env w
  = let v := read_message_value (native_byteorder env) (stdin w) in
    let w1 := snd (read_message env w) in
    if is_None v then (Return Stopped, w1)
    else
      match handle_message env v w1 with
      | (Return response, w2) =>
          (Return Running, snd (send_message env response w2))
      | (Raise e, w2) => (Raise e, w2)
      end.
Proof.
  unfold loop_body. unfold bind at 1. rewrite read_message_returns.
  cbv zeta. destruct (is_None _); [reflexivity|].
  unfold bind at 1.
  destruct (handle_message env _ _) as [[response|e] w2]; [|reflexivity].
  unfold bind. now rewrite send_message_returns.
Qed.

(** The loop goes on exactly when the document read is a mapping. *)
Lemma next_state_eq (w : Process P) :
  next_state env w
  = match read_message_value (native_byteorder env) (stdin w) with
    | JDict _ => Running
    | _ => Stopped
    end.
Proof.
  unfold next_state. rewrite loop_body_eq. cbv zeta.
  destruct (read_message_value _ _) as [|b|z|f|s|l|m]; cbn [is_None];
    try reflexivity;
    try (match goal with
         | |- context [handle_message env ?msg ?w1] =>
             destruct (handle_message_non_dict P env msg w1) as (e & ->);
             [discriminate | reflexivity]
         end).
  rewrite handle_message_dict.
  destruct (route env _ _ _) as [[result|e] w2]; reflexivity.
Qed.

(** An iteration that leaves the loop running has taken bytes off stdin. *)
Lemma loop_body_running (w w' : Process P) :
  loop_body env w = (Return Running, w') ->
  length (stdin w') < length (stdin w).
Proof.
  rewrite loop_body_eq. cbv zeta. intros H.
  destruct (read_message_run P env w) as (_ & _ & _ & Hin).
  destruct (is_None _) eqn:Hn; [discriminate|].
  assert (Hv : read_message_value (native_byteorder env) (stdin w) <> JNull).
  { intros E. rewrite E in Hn. discriminate. }
  apply read_message_consumes in Hv. rewrite <- Hin in Hv.
  pose proof (handle_message_state P env
                (read_message_value (native_byteorder env) (stdin w))
                (snd (read_message env w))) as (_ & Hh & _).
  destruct (handle_message env _ _) as [[response|e] w2]; [|discriminate].
  injection H as <-. cbn [snd] in Hh.
  destruct (send_message_run P env response w2) as (_ & _ & Hs & _).
  rewrite Hs, Hh. exact Hv.
Qed.

Lemma while_true_step (fuel : nat) (w : Process P) :
  while_true env (S fuel) w
  = match loop_body env w with
    | (Return Running, w') => while_true env fuel w'
    | (Return Stopped, w') => (Return true, w')
    | (Raise e, w') => (Raise e, w')
    end.
Proof.
  cbn [while_true]. unfold bind.
  destruct (loop_body env w) as [[[|]|e] w']; reflexivity.
Qed.

(** With a budget larger than the number of bytes on stdin, the loop is
    left before the budget runs out. *)
Lemma while_true_terminates (fuel : nat) :
  forall w : Process P,
    length (stdin w) < fuel ->
    fst (while_true env fuel w) <> Return false.
Proof.
  induction fuel as [|fuel IH]; intros w Hlen; [lia|].
  rewrite while_true_step.
  destruct (loop_body env w) as [[[|]|e] w'] eqn:E; cbn [fst];
    try discriminate.
  apply IH. apply loop_body_running in E. lia.
Qed.

(** [run] returns, whatever is on stdin: no exception leaves it. *)
Lemma run_terminates (fuel : nat) (w : Process P) :
  length (stdin w) < fuel -> fst (run env fuel w) = Return true.
Proof.
  intros Hlen. unfold run. unfold bind at 1. rewrite log_eq.
  unfold bind at 1. unfold try_except.
  set (w0 := snd (log env _ Info w)).
  assert (Hw0 : length (stdin w0) < fuel).
  { destruct (log_run P env (lit "KeePass native messaging host started") Info w)
      as (_ & _ & Hs & _). fold w0 in Hs. now rewrite Hs. }
  pose proof (while_true_terminates fuel w0 Hw0) as Hne.
  destruct (while_true env fuel w0) as [[b|e] w1]; cbn [fst] in Hne.
  - unfold bind. rewrite log_eq. cbn. destruct b; [reflexivity | congruence].
  - unfold bind at 1. rewrite log_eq. unfold ret at 1.
    unfold bind. rewrite log_eq. reflexivity.
Qed.

End Loop.

(* ------------------------------------------------------------------ *)
(** ** The frame codec *)

Lemma read_frame (bo : byteorder) (prefix payload : bytes) (n : N) :
  Struct.unpack bo prefix = Some n ->
  read_message_value bo (prefix ++ payload)
  = match Utf8.decode (firstn (N.to_nat n) payload) with
    | None => JNull
    | Some s => match Json.loads s with None => JNull | Some v => v end
    end
  /\ read_message_rest bo (prefix ++ payload) = skipn (N.to_nat n) payload.
Proof.
  intros Hn. pose proof (unpack_length bo prefix n Hn) as Hlen.
  unfold read_message_value, read_message_rest.
  assert (Hf : firstn 4 (prefix ++ payload) = prefix).
  { rewrite <- Hlen, firstn_app, Nat.sub_diag, firstn_all. cbn [firstn].
    apply List.app_nil_r. }
  assert (Hs : skipn 4 (prefix ++ payload) = payload).
  { rewrite <- Hlen, skipn_app, Nat.sub_diag, skipn_all. reflexivity. }
  rewrite Hf, Hs.
  destruct prefix as [|b0 prefix]; [discriminate|].
  rewrite Hn. split; reflexivity.
Qed.







(* ------------------------------------------------------------------ *)
(** ** The specification, claim by claim *)

Section Claims.

Variable P : Type.
Variable env : Env.


(** C2 (as amended).  A [get-credentials] request whose [data] mapping has
    no [domain], or a falsy one, is answered with [success: false]; the
    error is the missing-domain error when the backend capability is
    available and the unavailable error otherwise.  The host object is left
    as it was and the answer is the same whatever the backend handle is: no
    backend query is made. *)
Theorem C2_get_credentials_guards (m d : list (pystr * json)) (w : Process P) :
  dict_lookup m (lit "action") = Some (JStr (lit "get-credentials")) ->
  dict_get m (lit "data") (JDict []) = JDict d ->
  truthy (dict_get d (lit "domain") (JStr [])) = false ->
  fst (handle_message env (JDict m) w)
  = Return
      (JDict [(lit "id", dict_get m (lit "id") JNull);
              (lit "action", JStr (lit "get-credentials"));
              (lit "success", JBool false);
              (lit "error",
               JStr (if PYKEEPASS_AVAILABLE env
                     then lit "Domain not provided"
                     else lit "PyKeePass not available"))])
  /\ self (snd (handle_message env (JDict m) w)) = self w
  /\ forall h : KeePassHost P,
       fst (handle_message env (JDict m) (with_host w h))
       = fst (handle_message env (JDict m) w).
Proof.
  intros Ha Hd Ht.
  assert (Hgen : forall w' : Process P,
             fst (handle_message env (JDict m) w')
             = Return
                 (JDict [(lit "id", dict_get m (lit "id") JNull);
                         (lit "action", JStr (lit "get-credentials"));
                         (lit "success", JBool false);
                         (lit "error",
                          JStr (if PYKEEPASS_AVAILABLE env
                                then lit "Domain not provided"
                                else lit "PyKeePass not available"))])).
  { assert (Ha' : dict_get m (lit "action") JNull = JStr (lit "get-credentials")).
    { unfold dict_get. now rewrite Ha. }
    intros w'. rewrite handle_message_dict, Ha', Hd.
    unfold route. cbn [eq_str].
    change (pystr_eqb (lit "get-credentials") (lit "test-connection")) with false.
    change (pystr_eqb (lit "get-credentials") (lit "get-credentials")) with true.
    cbv iota. unfold handle_get_credentials.
    destruct (PYKEEPASS_AVAILABLE env); cbn [negb].
    - unfold bind. rewrite py_get_dict, Ht. reflexivity.
    - reflexivity. }
  split; [apply Hgen|]. split.
  - apply handle_message_state.
  - intros h. now rewrite !Hgen.
Qed.


(** C4 (as amended).  A stream that holds a length prefix claiming [n]
    payload bytes and then fewer than [n] bytes: [read_message] takes the
    bytes that are there for the payload, returns [None] when they are not
    UTF-8 or not a JSON document and the parsed document otherwise, and
    leaves the stream empty; the session loop then ends and [run] returns
    without an exception. *)
Theorem C4_truncated_frame (w : Process P) (prefix payload : bytes) (n : N)
        (fuel : nat) :
  stdin w = prefix ++ payload ->
  Struct.unpack (native_byteorder env) prefix = Some n ->
  length payload < N.to_nat n ->
  1 < fuel ->
  fst (read_message env w)
  = Return (match Utf8.decode payload with
            | None => JNull
            | Some s => match Json.loads s with None => JNull | Some v => v end
            end)
  /\ stdin (snd (read_message env w)) = []
  /\ fst (run env fuel w) = Return true.
Proof.
  intros Hin Hn Hshort Hfuel.
  destruct (read_frame (native_byteorder env) prefix payload n Hn) as (Hval & Hrest).
  rewrite firstn_all2 in Hval by lia. rewrite skipn_all2 in Hrest by lia.
  assert (Hread : forall w' : Process P,
             stdin w' = stdin w ->
             fst (read_message env w')
             = Return (match Utf8.decode payload with
                       | None => JNull
                       | Some s =>
                           match Json.loads s with None => JNull | Some v => v end
                       end)
             /\ stdin (snd (read_message env w')) = []).
  { intros w' E. destruct (read_message_run P env w') as (Hr & _ & _ & Hs).
    rewrite Hr, Hs, E, Hin, Hval, Hrest. now split. }
  destruct (Hread w eq_refl) as (H1 & H2).
  split; [exact H1|]. split; [exact H2|].
  (* the loop: at most one more iteration after this frame *)
  unfold run. unfold bind at 1. rewrite log_eq.
  unfold bind at 1. unfold try_except.
  set (w0 := snd (log env _ Info w)).
  assert (Hw0 : stdin w0 = stdin w) by apply log_run.
  destruct (Hread w0 Hw0) as (_ & Hempty).
  assert (Hne : fst (while_true env fuel w0) <> Return false).
  { destruct fuel as [|[|fuel]]; try lia.
    rewrite while_true_step.
    destruct (loop_body env w0) as [[[|]|e] w1] eqn:E; cbn [fst];
      try discriminate.
    apply while_true_terminates.
    assert (Hs1 : stdin w1 = []).
    { rewrite loop_body_eq in E. cbv zeta in E.
      destruct (is_None _); [discriminate|].
      pose proof (handle_message_state P env
                    (read_message_value (native_byteorder env) (stdin w0))
                    (snd (read_message env w0))) as (_ & Hh & _).
      destruct (handle_message env _ _) as [[response|e] w2]; [|discriminate].
      injection E as <-. cbn [snd] in Hh.
      destruct (send_message_run P env response w2) as (_ & _ & Hs & _).
      now rewrite Hs, Hh. }
    rewrite Hs1. cbn [length]. lia. }
  destruct (while_true env fuel w0) as [[b|e] w1]; cbn [fst] in Hne.
  - unfold bind. rewrite log_eq. cbn. destruct b; [reflexivity | congruence].
  - unfold bind at 1. rewrite log_eq. unfold ret at 1.
    unfold bind. rewrite log_eq. reflexivity.
Qed.

(** C5 (as amended).  [read_message] always returns.  When the document it
    returns is a mapping, [handle_message] returns a response, the success
    envelope around the handler's result or the error envelope around the
    exception that left the routing (message [str(e)]), the response is
    written, and the loop stays [Running].  In every other case (end of
    stream, a failed read, the document [null], or a document that is not
    a mapping, on which [handle_message] raises before its [try]) the loop
    goes to [Stopped]. *)
Theorem C5_loop_state (w : Process P) :
  fst (read_message env w)
  = Return (read_message_value (native_byteorder env) (stdin w))
  /\ match read_message_value (native_byteorder env) (stdin w) with
     | JDict m =>
         next_state env w = Running
         /\ exists response w2,
              handle_message env (JDict m) (snd (read_message env w))
              = (Return response, w2)
              /\ match fst (route env (dict_get m (lit "action") JNull)
                              (dict_get m (lit "data") (JDict []))
                              (snd (log env (lit "Handling action: "
                                             ++ fmt env (dict_get m (lit "action") JNull))
                                      Info (snd (read_message env w)))))
                 with
                 | Return result =>
                     response
                     = success_response (dict_get m (lit "id") JNull)
                         (dict_get m (lit "action") JNull) result
                 | Raise e =>
                     response
                     = error_response env (dict_get m (lit "id") JNull)
                         (dict_get m (lit "action") JNull) e
                 end
              /\ loop_body env w
                 = (Return Running, snd (send_message env response w2))
     | _ => next_state env w = Stopped
     end.
Proof.
  split; [apply read_message_run|].
  pose proof (next_state_eq P env w) as Hns.
  pose proof (loop_body_eq P env w) as Hlb. cbv zeta in Hlb.
  destruct (read_message_value _ _) as [|b|z|f|s|l|m]; try exact Hns.
  split; [exact Hns|]. cbn [is_None] in Hlb.
  rewrite handle_message_dict in *.
  destruct (route env _ _ _) as [[result|e] w2]; cbn [fst];
    eexists _, _; (split; [reflexivity|]); (split; [reflexivity|]); exact Hlb.
Qed.

(** C6.  A request whose [action] is a string that names no registered
    handler is answered with [success: false] and the error
    ["Unknown action: "] followed by that very name, and the session loop is
    [Running] afterwards. *)
Theorem C6_unknown_action (w : Process P) (m : list (pystr * json)) (a : pystr) :
  read_message_value (native_byteorder env) (stdin w) = JDict m ->
  dict_lookup m (lit "action") = Some (JStr a) ->
  a <> lit "test-connection" ->
  a <> lit "get-credentials" ->
  a <> lit "get-status" ->
  fst (handle_message env (JDict m) (snd (read_message env w)))
  = Return
      (JDict [(lit "id", dict_get m (lit "id") JNull);
              (lit "action", JStr a);
              (lit "success", JBool false);
              (lit "error", JStr (lit "Unknown action: " ++ a))])
  /\ next_state env w = Running.
Proof.
  intros Hr Ha H1 H2 H3. split.
  - assert (Ha' : dict_get m (lit "action") JNull = JStr a).
    { unfold dict_get. now rewrite Ha. }
    rewrite handle_message_dict, Ha'. unfold route. cbn [eq_str].
    apply pystr_eqb_neq in H1, H2, H3. now rewrite H1, H2, H3.
  - rewrite next_state_eq, Hr. reflexivity.
Qed.

(** C7.  The response [handle_message] gives to a request carries the
    request's [id] and [action] as they came, in the success envelope and
    in the error envelope alike. *)
Theorem C7_id_action_preserved (m : list (pystr * json)) (w : Process P) :
  exists r,
    fst (handle_message env (JDict m) w) = Return (JDict r)
    /\ dict_lookup r (lit "id") = Some (dict_get m (lit "id") JNull)
    /\ dict_lookup r (lit "action") = Some (dict_get m (lit "action") JNull).
Proof.
  rewrite handle_message_dict.
  destruct (route env _ _ _) as [[result|e] w2]; cbn [fst];
    eexists; (split; [reflexivity|]); split; reflexivity.
Qed.

(** C8.  Every response [handle_message] returns holds exactly one of
    [data] and [error]: [data] and no [error] when [success] is true,
    [error] and no [data] when [success] is false. *)
Theorem C8_data_xor_error (message : json) (w : Process P) (response : json) :
  fst (handle_message env message w) = Return response ->
  exists r,
    response = JDict r
    /\ ((dict_lookup r (lit "success") = Some (JBool true)
         /\ has_key r (lit "data") = true /\ has_key r (lit "error") = false)
        \/ (dict_lookup r (lit "success") = Some (JBool false)
            /\ has_key r (lit "data") = false /\ has_key r (lit "error") = true)).
Proof.
  intros H.
  destruct message as [|b|z|f|s|l|m]; try discriminate.
  rewrite handle_message_dict in H.
  destruct (route env _ _ _) as [[result|e] w2]; cbn [fst] in H;
    injection H as <-; eexists; (split; [reflexivity|]).
  - left. repeat split.
  - right. repeat split.
Qed.

(** C9.  Handling a request leaves the host object ([kp],
    [database_path], [is_connected]) as it was, and so does each of the
    three registered handlers. *)
Theorem C9_session_state_unchanged (message data : json) (w : Process P) :
  self (snd (handle_message env message w)) = self w
  /\ self (snd (handle_test_connection env data w)) = self w
  /\ self (snd (handle_get_credentials env data w)) = self w
  /\ self (snd (handle_get_status data w)) = self w.
Proof.
  split; [apply handle_message_state|].
  split; [reflexivity|].
  split; [apply handle_get_credentials_state | reflexivity].
Qed.

(** C10 (as amended).  [read_message] never raises: it returns the value
    [read_message_value] computes from the bytes on stdin.  When the stream
    ends before the length prefix is complete, when the bytes read as
    payload are not UTF-8, or when their text is not a JSON document, that
    value is [None], as at a clean end of stream. *)
Theorem C10_read_message_total (w : Process P) :
  fst (read_message env w)
  = Return (read_message_value (native_byteorder env) (stdin w))
  /\ (read_failure (native_byteorder env) (stdin w) ->
      fst (read_message env w) = Return JNull).
Proof.
  destruct (read_message_run P env w) as (Hr & _).
  split; [exact Hr|]. intros Hf. rewrite Hr. f_equal.
  destruct Hf as [|input Hlen|prefix rest n Hn Hd|prefix rest n s Hn Hd Hl].
  - reflexivity.
  - unfold read_message_value.
    destruct (firstn 4 input) as [|b0 raw] eqn:E; [reflexivity|].
    rewrite unpack_short; [reflexivity|].
    rewrite <- E, length_firstn. lia.
  - destruct (read_frame (native_byteorder env) prefix rest n Hn) as (-> & _).
    now rewrite Hd.
  - destruct (read_frame (native_byteorder env) prefix rest n Hn) as (-> & _).
    now rewrite Hd, Hl.
Qed.

End Claims.

(* ------------------------------------------------------------------ *)
(** ** The claims at concrete inputs *)



(** Why well-formed strings exclude a high surrogate directly followed by
    a low one: the two escapes are read back as one character. *)
Example adjacent_surrogates_fuse :
  loads (dumps (fun _ => []) (JStr [0xD83D; 0xDE00]%N)) = Some (JStr [0x1F600%N]).
Proof. reflexivity. Qed.

(** C2 at a [get-credentials] request with [data: {}], the backend being
    available. *)
Lemma C2_witness :
  dict_lookup [(lit "id", JInt 7); (lit "action", JStr (lit "get-credentials"));
               (lit "data", JDict [])] (lit "action")
  = Some (JStr (lit "get-credentials"))
  /\ dict_get [(lit "id", JInt 7); (lit "action", JStr (lit "get-credentials"));
               (lit "data", JDict [])] (lit "data") (JDict []) = JDict []
  /\ truthy (dict_get [] (lit "domain") (JStr [])) = false
  /\ fst (handle_message (sample_env true)
            (JDict [(lit "id", JInt 7); (lit "action", JStr (lit "get-credentials"));
                    (lit "data", JDict [])]) (start unit []))
     = Return
         (JDict [(lit "id", JInt 7);
                 (lit "action", JStr (lit "get-credentials"));
                 (lit "success", JBool false);
                 (lit "error", JStr (lit "Domain not provided"))]).
Proof.
  split; [reflexivity|]. split; [reflexivity|]. split; [reflexivity|].
  exact (proj1 (C2_get_credentials_guards unit (sample_env true)
                  [(lit "id", JInt 7); (lit "action", JStr (lit "get-credentials"));
                   (lit "data", JDict [])] [] (start unit [])
                  eq_refl eq_refl eq_refl)).
Defined.

(** C2 as stated fails twice.  With the backend capability missing, the
    request with [data: {}] gets the unavailable error, not the
    missing-domain error; with it present, a [domain] that is not a string
    but is truthy (here the number 1) is accepted. *)
Lemma C2_other_error_and_non_string_domain :
  fst (handle_message (sample_env false) (request "get-credentials" (JDict []))
         (start unit []))
  = Return
      (JDict [(lit "id", JStr (lit "abc123"));
              (lit "action", JStr (lit "get-credentials"));
              (lit "success", JBool false);
              (lit "error", JStr (lit "PyKeePass not available"))])
  /\ fst (handle_message (sample_env true)
            (request "get-credentials" (JDict [(lit "domain", JInt 1)]))
            (start unit []))
     = Return
         (JDict [(lit "id", JStr (lit "abc123"));
                 (lit "action", JStr (lit "get-credentials"));
                 (lit "success", JBool true);
                 (lit "data", JDict [(lit "credentials", JList [])])]).
Proof. split; reflexivity. Qed.



(** C4 at a prefix claiming 5 bytes followed by the 2 bytes of ["[1"]. *)
Lemma C4_witness :
  stdin (start unit (claimed_frame 5 (lit "[1")))
  = le_bytes 5 ++ map byte_of (lit "[1")
  /\ Struct.unpack (native_byteorder (sample_env true)) (le_bytes 5) = Some 5%N
  /\ length (map byte_of (lit "[1")) < N.to_nat 5
  /\ 1 < 2
  /\ fst (read_message (sample_env true) (start unit (claimed_frame 5 (lit "[1"))))
     = Return JNull
  /\ stdin (snd (read_message (sample_env true)
                   (start unit (claimed_frame 5 (lit "[1"))))) = []
  /\ fst (run (sample_env true) 2 (start unit (claimed_frame 5 (lit "[1"))))
     = Return true.
Proof.
  split; [reflexivity|]. split; [reflexivity|].
  split; [cbn; lia|]. split; [lia|].
  apply (C4_truncated_frame unit (sample_env true)
           (start unit (claimed_frame 5 (lit "[1")))
           (le_bytes 5) (map byte_of (lit "[1")) 5%N 2);
    [reflexivity | reflexivity | cbn; lia | lia].
Defined.

(** C4 as stated fails: a prefix claiming 5 bytes followed by the 2 bytes
    of ["{}"] is read as the message [{}], and the loop goes on. *)
Lemma C4_short_payload_is_a_message :
  fst (read_message (sample_env true) (start unit (claimed_frame 5 (lit "{}"))))
  = Return (JDict [])
  /\ next_state (sample_env true) (start unit (claimed_frame 5 (lit "{}")))
     = Running.
Proof. split; reflexivity. Qed.

(** C5 as stated fails: the complete frame around ["[]"] is decoded, to an
    empty list, and yet the loop stops, with nothing written. *)
Lemma C5_decoded_list_stops_loop :
  fst (read_message (sample_env true) (start unit (frame_bytes (lit "[]"))))
  = Return (JList [])
  /\ next_state (sample_env true) (start unit (frame_bytes (lit "[]"))) = Stopped
  /\ stdout (snd (loop_body (sample_env true)
                    (start unit (frame_bytes (lit "[]"))))) = [].
Proof. repeat split; reflexivity. Qed.

(** C6 at the request [{'action': 'does-not-exist'}]. *)
Lemma C6_witness :
  read_message_value (native_byteorder (sample_env true))
    (stdin (start unit (frame_bytes (json_text "{'action': 'does-not-exist'}"))))
  = JDict [(lit "action", JStr (lit "does-not-exist"))]
  /\ dict_lookup [(lit "action", JStr (lit "does-not-exist"))] (lit "action")
     = Some (JStr (lit "does-not-exist"))
  /\ lit "does-not-exist" <> lit "test-connection"
  /\ lit "does-not-exist" <> lit "get-credentials"
  /\ lit "does-not-exist" <> lit "get-status"
  /\ fst (handle_message (sample_env true)
            (JDict [(lit "action", JStr (lit "does-not-exist"))])
            (snd (read_message (sample_env true)
                    (start unit (frame_bytes
                                   (json_text "{'action': 'does-not-exist'}"))))))
     = Return
         (JDict [(lit "id", JNull);
                 (lit "action", JStr (lit "does-not-exist"));
                 (lit "success", JBool false);
                 (lit "error", JStr (lit "Unknown action: does-not-exist"))])
  /\ next_state (sample_env true)
       (start unit (frame_bytes (json_text "{'action': 'does-not-exist'}")))
     = Running.
Proof.
  split; [reflexivity|]. split; [reflexivity|].
  split; [discriminate|]. split; [discriminate|]. split; [discriminate|].
  apply (C6_unknown_action unit (sample_env true)
           (start unit (frame_bytes (json_text "{'action': 'does-not-exist'}")))
           [(lit "action", JStr (lit "does-not-exist"))] (lit "does-not-exist"));
    solve [reflexivity | discriminate].
Defined.

(** C8 at the answer to a [get-status] request. *)
Lemma C8_witness :
  fst (handle_message (sample_env true) (request "get-status" (JDict []))
         (start unit []))
  = Return sample_response
  /\ exists r,
       sample_response = JDict r
       /\ ((dict_lookup r (lit "success") = Some (JBool true)
            /\ has_key r (lit "data") = true /\ has_key r (lit "error") = false)
           \/ (dict_lookup r (lit "success") = Some (JBool false)
               /\ has_key r (lit "data") = false /\ has_key r (lit "error") = true)).
Proof.
  split; [reflexivity|].
  exact (C8_data_xor_error unit (sample_env true) (request "get-status" (JDict []))
           (start unit []) sample_response eq_refl).
Defined.

(** C10 at a stream that ends inside the length prefix. *)
Lemma C10_witness :
  read_failure (native_byteorder (sample_env true))
    (stdin (start unit [x05; x00; x00]))
  /\ fst (read_message (sample_env true) (start unit [x05; x00; x00]))
     = Return JNull.
Proof.
  assert (H : read_failure (native_byteorder (sample_env true))
                (stdin (start unit [x05; x00; x00]))).
  { apply short_prefix. cbn. lia. }
  split; [exact H|].
  exact (proj2 (C10_read_message_total unit (sample_env true)
                  (start unit [x05; x00; x00])) H).
Defined.

(** C10 as stated fails: after a prefix claiming 5 bytes, the single byte
    ["1"] is a short payload read, and what comes back is the number 1, not
    [None]. *)
Lemma C10_short_read_returns_a_value :
  length (map byte_of (lit "1")) < N.to_nat 5
  /\ fst (read_message (sample_env true) (start unit (claimed_frame 5 (lit "1"))))
     = Return (JInt 1)
  /\ JInt 1 <> JNull.
Proof. split; [cbn; lia|]. split; [reflexivity | discriminate]. Qed.

(* ------------------------------------------------------------------ *)
(** ** Sessions: what every step preserves *)

Lemma follows_refl {P : Type} (env : Env) (w : Process P) : follows env w w.
Proof.
  split; [reflexivity|]. split; [exists []; now rewrite List.app_nil_r|].
  split; [now exists []|]. exists []. now rewrite List.app_nil_r.
Qed.

Lemma follows_trans {P : Type} (env : Env) (w1 w2 w3 : Process P) :
  follows env w1 w2 -> follows env w2 w3 -> follows env w1 w3.
Proof.
  intros (A1 & (o1 & A2) & (t1 & A3) & (l1 & A4 & A5))
         (B1 & (o2 & B2) & (t2 & B3) & (l2 & B4 & B5)).
  split; [congruence|].
  split; [exists (o1 ++ o2); now rewrite B2, A2, List.app_assoc|].
  split; [exists (t1 ++ t2); now rewrite A3, B3, List.app_assoc|].
  exists (l1 ++ l2). split; [now rewrite B4, A4, List.app_assoc|].
  intros H. now rewrite (A5 H), (B5 H).
Qed.

Lemma read_message_rest_suffix (bo : byteorder) (input : bytes) :
  exists taken, input = taken ++ read_message_rest bo input.
Proof.
  unfold read_message_rest.
  assert (H4 : exists taken, input = taken ++ skipn 4 input).
  { exists (firstn 4 input). now rewrite firstn_skipn. }
  destruct (firstn 4 input) as [|b0 raw]; [exact H4|].
  destruct (Struct.unpack bo (b0 :: raw)) as [n|]; [|exact H4].
  exists (firstn 4 input ++ firstn (N.to_nat n) (skipn 4 input)).
  now rewrite <- List.app_assoc, !firstn_skipn.
Qed.

Section Session.

Variable P : Type.
Variable env : Env.

Lemma log_follows (message : pystr) (level : log_level) (w : Process P) :
  follows env w (snd (log env message level w)).
Proof.
  unfold log. destruct (LOG_ENABLED env) eqn:E; [|apply follows_refl].
  cbn [snd]. split; [reflexivity|].
  split; [exists []; cbn [stdout]; now rewrite List.app_nil_r|].
  split; [now exists []|].
  exists [(level, message)]. split; [reflexivity | congruence].
Qed.

Lemma handle_get_credentials_follows (data : json) (w : Process P) :
  follows env w (snd (handle_get_credentials env data w)).
Proof.
  unfold handle_get_credentials.
  destruct (PYKEEPASS_AVAILABLE env); cbn [negb]; [|apply follows_refl].
  unfold bind. destruct data; try apply follows_refl.
  rewrite py_get_dict.
  destruct (truthy _); cbn [negb]; [|apply follows_refl].
  rewrite log_eq. apply log_follows.
Qed.

Lemma route_follows (action data : json) (w : Process P) :
  follows env w (snd (route env action data w)).
Proof.
  unfold route.
  destruct (eq_str action _); [apply follows_refl|].
  destruct (eq_str action _); [apply handle_get_credentials_follows|].
  destruct (eq_str action _); apply follows_refl.
Qed.

Lemma handle_message_follows (message : json) (w : Process P) :
  follows env w (snd (handle_message env message w)).
Proof.
  destruct message as [|b|z|f|s|l|m];
    try (match goal with
         | |- context [handle_message env ?msg w] =>
             destruct (handle_message_non_dict P env msg w) as (e & ->);
             [discriminate | apply follows_refl]
         end).
  rewrite handle_message_dict.
  set (w1 := snd (log env _ Info w)).
  assert (H1 : follows env w w1) by apply log_follows.
  pose proof (route_follows (dict_get m (lit "action") JNull)
                (dict_get m (lit "data") (JDict [])) w1) as H2.
  destruct (route env _ _ w1) as [[result|e] w2]; cbn [snd] in *.
  - now apply follows_trans with w1.
  - apply follows_trans with w2; [now apply follows_trans with w1|].
    apply log_follows.
Qed.

Lemma read_message_follows (w : Process P) :
  follows env w (snd (read_message env w)).
Proof.
  destruct (read_message_rest_suffix (native_byteorder env) (stdin w))
    as (taken & Htaken).
  assert (H : exists records,
             snd (read_message env w)
             = {| self := self w;
                  stdin := read_message_rest (native_byteorder env) (stdin w);
                  stdout := stdout w; logfile := logfile w ++ records |}
             /\ (LOG_ENABLED env = false -> records = [])).
  { destruct w as [host input output lg0].
    cbv [read_message try_except bind stdin_read ret struct_unpack
         bytes_decode json_loads raise log read_message_rest].
    cbn [self stdin stdout logfile snd].
    destruct (firstn 4 input) as [|b0 raw] eqn:Eraw;
      [exists []; now rewrite List.app_nil_r|].
    destruct (Struct.unpack (native_byteorder env) (b0 :: raw)) as [n|];
      cbn [self stdin stdout logfile snd].
    - destruct (Utf8.decode _) as [s|]; cbn [self stdin stdout logfile snd].
      + destruct (Json.loads s) as [v|]; cbn [self stdin stdout logfile snd].
        * exists []; now rewrite List.app_nil_r.
        * destruct (LOG_ENABLED env); cbn [snd];
            [eexists; split; [reflexivity | discriminate]
            | exists []; now rewrite List.app_nil_r].
      + destruct (LOG_ENABLED env); cbn [snd];
          [eexists; split; [reflexivity | discriminate]
          | exists []; now rewrite List.app_nil_r].
    - destruct (LOG_ENABLED env); cbn [snd];
        [eexists; split; [reflexivity | discriminate]
        | exists []; now rewrite List.app_nil_r]. }
  destruct H as (records & -> & Hoff).
  split; [reflexivity|].
  split; [exists []; cbn [stdout]; now rewrite List.app_nil_r|].
  split; [exists taken; exact Htaken|].
  now exists records.
Qed.

Lemma send_message_follows (message : json) (w : Process P) :
  follows env w (snd (send_message env message w)).
Proof.
  assert (H : exists records,
             snd (send_message env message w)
             = {| self := self w; stdin := stdin w;
                  stdout := stdout w
                            ++ match frame_of env message with
                               | Some f => f
                               | None => []
                               end;
                  logfile := logfile w ++ records |}
             /\ (LOG_ENABLED env = false -> records = [])).
  { destruct w as [host input output lg0].
    cbv [send_message try_except bind str_encode struct_pack stdout_write
         stdout_flush ret raise log frame_of].
    destruct (Utf8.encode (json_dumps env message)) as [encoded|];
      cbn [self stdin stdout logfile snd].
    - destruct (Struct.pack _ _) as [prefix|]; cbn [self stdin stdout logfile snd].
      + rewrite <- List.app_assoc. exists []. now rewrite List.app_nil_r.
      + rewrite List.app_nil_r. destruct (LOG_ENABLED env); cbn [snd];
          [eexists; split; [reflexivity | discriminate]
          | exists []; now rewrite List.app_nil_r].
    - rewrite List.app_nil_r. destruct (LOG_ENABLED env); cbn [snd];
        [eexists; split; [reflexivity | discriminate]
        | exists []; now rewrite List.app_nil_r]. }
  destruct H as (records & -> & Hoff).
  split; [reflexivity|].
  split; [now eexists|].
  split; [now exists []|].
  now exists records.
Qed.

Lemma loop_body_follows (w : Process P) :
  follows env w (snd (loop_body env w)).
Proof.
  rewrite loop_body_eq. cbv zeta.
  pose proof (read_message_follows w) as H1.
  set (w1 := snd (read_message env w)) in *.
  destruct (is_None _); [exact H1|].
  pose proof (handle_message_follows
                (read_message_value (native_byteorder env) (stdin w)) w1) as H2.
  destruct (handle_message env _ w1) as [[response|e] w2]; cbn [snd] in *.
  - apply follows_trans with w2; [now apply follows_trans with w1|].
    apply send_message_follows.
  - now apply follows_trans with w1.
Qed.

Lemma while_true_follows (fuel : nat) :
  forall w : Process P, follows env w (snd (while_true env fuel w)).
Proof.
  induction fuel as [|fuel IH]; intros w; [apply follows_refl|].
  rewrite while_true_step.
  pose proof (loop_body_follows w) as H.
  destruct (loop_body env w) as [[[|]|e] w']; cbn [snd] in *; try exact H.
  apply follows_trans with w'; [exact H | apply IH].
Qed.

(** [run], with its [try], [except] and [finally] unfolded. *)
Lemma run_eq (fuel : nat) (w : Process P) :
  run env fuel w
  = let w0 := snd (log env (lit "KeePass native messaging host started") Info w) in
    match while_true env fuel w0 with
    | (Return finished, w1) =>
        (Return finished,
         snd (log env (lit "KeePass native messaging host stopped") Info w1))
    | (Raise e, w1) =>
        (Return true,
         snd (log env (lit "KeePass native messaging host stopped") Info
                (snd (log env (lit "Fatal error: " ++ exn_str env e) Error w1))))
    end.
Proof.
  cbv zeta. unfold run. unfold bind at 1. rewrite log_eq.
  unfold bind at 1. unfold try_except.
  destruct (while_true env fuel _) as [[b|e] w1].
  - unfold bind. now rewrite log_eq.
  - unfold bind at 1. rewrite log_eq. unfold ret at 1.
    unfold bind. now rewrite log_eq.
Qed.

Lemma run_follows (fuel : nat) (w : Process P) :
  follows env w (snd (run env fuel w)).
Proof.
  rewrite run_eq. cbv zeta.
  pose proof (log_follows (lit "KeePass native messaging host started") Info w) as H0.
  set (w0 := snd (log env _ Info w)) in *.
  pose proof (while_true_follows fuel w0) as H1.
  destruct (while_true env fuel w0) as [[b|e] w1]; cbn [snd] in *.
  - apply follows_trans with w1; [now apply follows_trans with w0|].
    apply log_follows.
  - apply follows_trans with w1; [now apply follows_trans with w0|].
    eapply follows_trans; apply log_follows.
Qed.

End Session.

(* ------------------------------------------------------------------ *)
(** ** Responses as a function of the request *)

Section Answers.

Variable P : Type.
Variable env : Env.

Lemma handle_get_credentials_result (data : json) (w w' : Process P) :
  fst (handle_get_credentials env data w)
  = fst (handle_get_credentials env data w').
Proof.
  unfold handle_get_credentials.
  destruct (PYKEEPASS_AVAILABLE env); cbn [negb]; [|reflexivity].
  unfold bind. destruct data; try reflexivity.
  rewrite !py_get_dict.
  destruct (truthy _); cbn [negb]; [|reflexivity].
  rewrite (log_eq P env _ _ w), (log_eq P env _ _ w'). reflexivity.
Qed.

Lemma route_result (action data : json) (w w' : Process P) :
  self w = self w' ->
  fst (route env action data w) = fst (route env action data w').
Proof.
  intros H. unfold route.
  destruct (eq_str action _); [reflexivity|].
  destruct (eq_str action _); [apply handle_get_credentials_result|].
  destruct (eq_str action _); [|reflexivity].
  unfold handle_get_status, bind, get_self, ret. cbn [fst]. now rewrite H.
Qed.

Lemma handle_message_fst (m : list (pystr * json)) (w : Process P) :
  fst (handle_message env (JDict m) w)
  = Return
      (match fst (route env (dict_get m (lit "action") JNull)
                    (dict_get m (lit "data") (JDict [])) w) with
       | Return result =>
           success_response (dict_get m (lit "id") JNull)
             (dict_get m (lit "action") JNull) result
       | Raise e =>
           error_response env (dict_get m (lit "id") JNull)
             (dict_get m (lit "action") JNull) e
       end).
Proof.
  rewrite handle_message_dict. cbv zeta.
  set (w1 := snd (log env _ Info w)).
  assert (Hs : self w = self w1).
  { symmetry. apply (log_run P env _ Info w). }
  rewrite (route_result _ _ w w1 Hs).
  destruct (route env _ _ w1) as [[result|e] w2]; reflexivity.
Qed.

Lemma handle_message_result (message : json) (w w' : Process P) :
  self w = self w' ->
  fst (handle_message env message w) = fst (handle_message env message w').
Proof.
  intros H. destruct message; try reflexivity.
  rewrite !handle_message_fst. now rewrite (route_result _ _ w w' H).
Qed.


End Answers.

(* ------------------------------------------------------------------ *)
(** ** Complete frames *)

Lemma read_complete_frame (bo : byteorder) (prefix payload rest : bytes) (n : N) :
  Struct.unpack bo prefix = Some n ->
  length payload = N.to_nat n ->
  read_message_value bo (prefix ++ payload ++ rest) = document_of payload
  /\ read_message_rest bo (prefix ++ payload ++ rest) = rest.
Proof.
  intros Hu Hl.
  destruct (read_frame bo prefix (payload ++ rest) n Hu) as (Hv & Hr).
  rewrite <- Hl in Hv, Hr.
  rewrite firstn_app, Nat.sub_diag, firstn_all in Hv. cbn [firstn] in Hv.
  rewrite List.app_nil_r in Hv.
  rewrite skipn_app, Nat.sub_diag, skipn_all in Hr.
  split; [exact Hv | exact Hr].
Qed.




(* ------------------------------------------------------------------ *)
(** ** [os.path.basename] *)

Lemma basename_no_slash (p : pystr) : existsb (N.eqb 47) (basename p) = false.
Proof.
  induction p as [|c r IH]; [reflexivity|].
  cbn [basename]. destruct (existsb (N.eqb 47) r) eqn:E; [exact IH|].
  destruct (N.eqb c 47) eqn:Ec; [exact E|].
  cbn [existsb]. now rewrite N.eqb_sym, Ec, E.
Qed.

Lemma basename_suffix (p : pystr) :
  exists dir, p = dir ++ basename p /\ (dir = [] \/ exists d, dir = d ++ [47%N]).
Proof.
  induction p as [|c r IH]; [exists []; now split; [|left]|].
  cbn [basename]. destruct (existsb (N.eqb 47) r) eqn:E.
  - destruct IH as (dir & Hr & [->|(d & ->)]).
    + cbn [app] in Hr.
      pose proof (basename_no_slash r) as H. rewrite <- Hr in H. congruence.
    + exists (c :: d ++ [47%N]). split; [cbn [app]; now rewrite <- Hr|].
      right. now exists (c :: d).
  - destruct (N.eqb_spec c 47) as [->|Hc].
    + exists [47%N]. split; [reflexivity|]. right. now exists [].
    + exists []. split; [reflexivity | now left].
Qed.

Lemma log_enabled (P : Type) (env : Env) (message : pystr) (level : log_level)
      (w : Process P) :
  LOG_ENABLED env = true ->
  logfile (snd (log env message level w)) = logfile w ++ [(level, message)].
Proof. intros H. unfold log. now rewrite H. Qed.

(* ------------------------------------------------------------------ *)
(** ** Well-formed responses *)

Lemma str_ok_basename (p : pystr) : str_ok p = true -> str_ok (basename p) = true.
Proof.
  induction p as [|c r IH]; [reflexivity|]. intros H.
  pose proof (str_ok_tail c r H) as Hr. cbn [basename].
  destruct (existsb (N.eqb 47) r); [now apply IH|].
  destruct (N.eqb c 47); [exact Hr | exact H].
Qed.

(** An ASCII text in front of a well-formed string. *)
Lemma str_ok_app_ascii (s t : pystr) :
  ascii_only s -> str_ok t = true -> str_ok (s ++ t) = true.
Proof.
  intros Hs Ht. induction Hs as [|c s Hc Hs IH]; [exact Ht|].
  cbn [app str_ok]. rewrite IH.
  assert (H1 : codepoint_ok c = true).
  { unfold codepoint_ok. apply N.ltb_lt. clear - Hc. lia. }
  assert (H2 : is_high_surrogate c = false).
  { unfold is_high_surrogate. apply andb_false_iff. left.
    apply N.leb_gt. clear - Hc. lia. }
  rewrite H1, H2. now destruct (s ++ t).
Qed.

Lemma str_ok_ascii (s : pystr) : ascii_only s -> str_ok s = true.
Proof.
  intros Hs. rewrite <- (List.app_nil_r s). now apply str_ok_app_ascii.
Qed.

Lemma valid_dict_get (m : list (pystr * json)) (k : pystr) (default : json) :
  valid (JDict m) = true -> valid default = true ->
  valid (dict_get m k default) = true.
Proof.
  intros Hm Hd. unfold dict_get. cbn [valid] in Hm.
  apply andb_true_iff in Hm. destruct Hm as (_ & Hm).
  induction m as [|[k' v] m IH]; [exact Hd|].
  cbn [forallb fst snd] in Hm. apply andb_true_iff in Hm.
  destruct Hm as (Hkv & Hm). apply andb_true_iff in Hkv.
  cbn [dict_lookup]. destruct (pystr_eqb k' k); [apply Hkv | now apply IH].
Qed.

Lemma valid_success_response (message_id action result : json) :
  valid message_id = true -> valid action = true -> valid result = true ->
  valid (success_response message_id action result) = true.
Proof.
  intros H1 H2 H3. unfold success_response.
  cbn [valid map fst snd forallb]. rewrite H1, H2, H3. reflexivity.
Qed.

Lemma valid_error_response (env : Env) (message_id action : json) (e : exn) :
  valid message_id = true -> valid action = true ->
  str_ok (exn_str env e) = true ->
  valid (error_response env message_id action e) = true.
Proof.
  intros H1 H2 H3. unfold error_response.
  cbn [valid map fst snd forallb]. rewrite H1, H2, H3. reflexivity.
Qed.

(** The [str] of a well-formed scalar is a well-formed string. *)
Lemma str_ok_fmt (env : Env) (v : json) :
  scalar v = true -> valid v = true -> str_ok (fmt env v) = true.
Proof.
  intros Hs Hv. destruct v as [|b|z|f|s|l|d]; try discriminate.
  - reflexivity.
  - now destruct b.
  - apply str_ok_ascii. apply ascii_only_repr_int.
  - exact Hv.
Qed.

(** What the routing returns is a well-formed document, and what it raises
    has a well-formed text. *)
Lemma route_valid (P : Type) (env : Env) (action data : json) (w : Process P) :
  scalar action = true -> valid action = true -> path_ok (self w) = true ->
  match fst (route env action data w) with
  | Return result => valid result = true
  | Raise e => str_ok (exn_str env e) = true
  end.
Proof.
  intros Hs Hv Hp. unfold route.
  destruct (eq_str action _).
  { cbn [handle_test_connection ret fst].
    now destruct (PYKEEPASS_AVAILABLE env). }
  destruct (eq_str action _).
  { unfold handle_get_credentials.
    destruct (PYKEEPASS_AVAILABLE env); cbn [negb]; [|reflexivity].
    unfold bind. destruct data as [|b|z|f|s|l|d]; try reflexivity.
    rewrite py_get_dict.
    destruct (truthy _); cbn [negb]; [|reflexivity].
    rewrite log_eq. reflexivity. }
  destruct (eq_str action _).
  { unfold handle_get_status, bind, get_self, ret. cbn [fst].
    cbn [valid map fst snd forallb].
    unfold path_ok in Hp.
    destruct (database_path (self w)) as [[|c p]|]; try reflexivity.
    rewrite (str_ok_basename _ Hp). reflexivity. }
  cbn [raise fst exn_str].
  apply str_ok_app_ascii; [repeat constructor | now apply str_ok_fmt].
Qed.

(* ------------------------------------------------------------------ *)
(** ** The alphabet of [json.dumps] *)

(** With its default [ensure_ascii], [json.dumps] writes ASCII only,
    whatever the strings of the document hold. *)
Lemma ascii_only_dumps_any (fs : float_literal -> pystr) (v : json) :
  (forall f, ascii_only (fs f)) -> ascii_only (dumps fs v).
Proof.
  intros Hfs.
  induction v as [|b|z|f|s|l IH|d IH] using json_induction.
  - repeat constructor.
  - destruct b; repeat constructor.
  - apply ascii_only_repr_int.
  - apply Hfs.
  - apply ascii_only_encode_basestring.
  - cbn [dumps]. apply ascii_only_app; [repeat constructor|].
    apply ascii_only_app; [|repeat constructor].
    apply ascii_only_join. exact IH.
  - cbn [dumps]. apply ascii_only_app; [repeat constructor|].
    apply ascii_only_app; [|repeat constructor].
    apply (ascii_only_join
             (fun kv => encode_basestring_ascii (fst kv) ++ lit ": " ++ dumps fs (snd kv))).
    apply Forall_forall. intros kv Hkv. rewrite Forall_forall in IH.
    apply ascii_only_app; [apply ascii_only_encode_basestring|].
    apply ascii_only_app; [repeat constructor | now apply IH].
Qed.

(* ------------------------------------------------------------------ *)
(** ** Further properties of the session *)

(** X1.  Whatever bytes are waiting on stdin, [run] returns: the loop is left
    after finitely many iterations and no exception leaves [run]. *)
Theorem run_returns (P : Type) (env : Env) (input : bytes) (fuel : nat) :
  length input < fuel ->
  fst (run env fuel (start P input)) = Return true.
Proof. intros H. now apply run_terminates. Qed.

(** [run_returns] at a stream holding one [get-status] request. *)
Lemma run_returns_witness :
  length (frame_bytes (json_text "{'id': 1, 'action': 'get-status'}")) < 64
  /\ fst (run (sample_env true) 64
            (start unit (frame_bytes (json_text "{'id': 1, 'action': 'get-status'}"))))
     = Return true.
Proof.
  split; [apply Nat.ltb_lt; reflexivity|].
  apply (run_returns unit (sample_env true)
           (frame_bytes (json_text "{'id': 1, 'action': 'get-status'}")) 64).
  apply Nat.ltb_lt; reflexivity.
Defined.


(** X3.  At an immediate end of stream the loop is left at once and nothing is
    written to stdout. *)
Theorem stream_end_no_response (P : Type) (env : Env) (fuel : nat) :
  fst (run env (S fuel) (start P [])) = Return true
  /\ stdout (snd (run env (S fuel) (start P []))) = [].
Proof.
  cbv [run bind try_except ret].
  destruct (log_record P env (lit "KeePass native messaging host started") Info
              (start P [])) as (lg0 & ->).
  cbn [start self stdin stdout].
  rewrite while_true_step, loop_body_eq. cbv zeta.
  cbn [stdin read_message_value firstn is_None].
  match goal with
  | |- context [read_message env ?w0] =>
      destruct (read_message_eq P env w0) as (lg1 & ->)
  end.
  cbn [snd self stdin stdout].
  match goal with
  | |- context [log env ?msg Info ?w1] =>
      destruct (log_record P env msg Info w1) as (lg2 & ->)
  end.
  split; reflexivity.
Qed.

(* ------------------------------------------------------------------ *)
(** ** Further properties of the frame codec *)



(** X5.  [send_message] never raises and touches neither stdin nor the host
    object.  When the text of the message encodes to fewer than [2^32]
    bytes it appends one whole frame to stdout: a four-byte prefix that
    unpacks to the length of the payload, then the payload.  Otherwise it
    appends nothing. *)
Theorem send_message_writes_whole_frames (P : Type) (env : Env) (message : json)
        (w : Process P) :
  fst (send_message env message w) = Return tt
  /\ self (snd (send_message env message w)) = self w
  /\ stdin (snd (send_message env message w)) = stdin w
  /\ match Utf8.encode (json_dumps env message) with
     | Some payload =>
         if (N.of_nat (length payload) <? 2 ^ 32)%N
         then exists prefix,
                length prefix = 4
                /\ Struct.unpack (native_byteorder env) prefix
                   = Some (N.of_nat (length payload))
                /\ stdout (snd (send_message env message w))
                   = stdout w ++ prefix ++ payload
         else stdout (snd (send_message env message w)) = stdout w
     | None => stdout (snd (send_message env message w)) = stdout w
     end.
Proof.
  destruct (send_message_run P env message w) as (Hr & Hs & Hi & Ho).
  split; [exact Hr|]. split; [exact Hs|]. split; [exact Hi|].
  rewrite Ho. unfold frame_of.
  destruct (Utf8.encode (json_dumps env message)) as [payload|];
    [|apply List.app_nil_r].
  destruct (N.ltb_spec (N.of_nat (length payload)) (2 ^ 32)) as [Hlt|Hge].
  - destruct (unpack_pack (native_byteorder env) _ Hlt) as (b & Hb & Hl & Hu).
    rewrite Hb. now exists b.
  - rewrite (pack_too_big (native_byteorder env) _ Hge). apply List.app_nil_r.
Qed.

(** X6.  The JSON text of a message is ASCII whatever the message holds, so
    its encoding never fails and takes one byte per character: the only
    message [send_message] drops is one whose text has [2^32] characters or
    more. *)
Theorem send_message_drops_only_oversized (P : Type) (env : Env) (message : json)
        (w : Process P) :
  (forall f, ascii_only (floatstr env f)) ->
  Utf8.encode (json_dumps env message) = Some (map byte_of (json_dumps env message))
  /\ (stdout (snd (send_message env message w)) = stdout w
      <-> (2 ^ 32 <= N.of_nat (length (json_dumps env message)))%N).
Proof.
  intros Hfs.
  pose proof (encode_ascii _ (ascii_only_dumps_any (floatstr env) message Hfs))
    as Henc.
  fold (json_dumps env message) in Henc. split; [exact Henc|].
  destruct (send_message_run P env message w) as (_ & _ & _ & Ho).
  rewrite Ho. unfold frame_of. rewrite Henc, length_map.
  destruct (N.lt_ge_cases (N.of_nat (length (json_dumps env message))) (2 ^ 32))
    as [Hlt|Hge].
  - destruct (unpack_pack (native_byteorder env) _ Hlt) as (b & Hb & Hl & _).
    rewrite Hb. split.
    + intros H. rewrite <- (List.app_nil_r (stdout w)) in H at 2.
      apply app_inv_head in H. destruct b; discriminate.
    + intros H. clear - H Hlt. lia.
  - rewrite (pack_too_big (native_byteorder env) _ Hge).
    split; [intros _; exact Hge | intros _; apply List.app_nil_r].
Qed.

(** [send_message_drops_only_oversized] at a string made of a lone
    surrogate. *)
Lemma send_message_drops_only_oversized_witness :
  (forall f, ascii_only (floatstr (sample_env true) f))
  /\ Utf8.encode (json_dumps (sample_env true) (JStr [0xD83D%N]))
     = Some (map byte_of (json_dumps (sample_env true) (JStr [0xD83D%N])))
  /\ (stdout (snd (send_message (sample_env true) (JStr [0xD83D%N]) (start unit [])))
      = stdout (start unit [])
      <-> (2 ^ 32
           <= N.of_nat (length (json_dumps (sample_env true) (JStr [0xD83D%N]))))%N).
Proof.
  split; [intros f; repeat constructor|].
  apply (send_message_drops_only_oversized unit (sample_env true)
           (JStr [0xD83D%N]) (start unit [])).
  intros f; repeat constructor.
Defined.

(* ------------------------------------------------------------------ *)
(** ** Further properties of the handlers *)

(** X7.  The response to a message depends on the message and on the host
    object only: not on what is waiting on stdin, on what was written to
    stdout, or on the log, hence not on the requests handled before. *)
Theorem response_depends_on_host_only (P : Type) (env : Env) (message : json)
        (w w' : Process P) :
  self w = self w' ->
  fst (handle_message env message w) = fst (handle_message env message w').
Proof. apply handle_message_result. Qed.

(** [response_depends_on_host_only] at a fresh process and at one in the
    middle of a session. *)
Lemma response_depends_on_host_only_witness :
  self (start unit []) 
  = self {| self := new_host unit; stdin := [x01]; stdout := [x02];
            logfile := [(Info, lit "earlier")] |}
  /\ fst (handle_message (debug_env true) (request "get-status" (JDict []))
            (start unit []))
     = fst (handle_message (debug_env true) (request "get-status" (JDict []))
              {| self := new_host unit; stdin := [x01]; stdout := [x02];
                 logfile := [(Info, lit "earlier")] |}).
Proof.
  split; [reflexivity|].
  apply (response_depends_on_host_only unit (debug_env true)
           (request "get-status" (JDict [])) (start unit [])
           {| self := new_host unit; stdin := [x01]; stdout := [x02];
              logfile := [(Info, lit "earlier")] |}).
  reflexivity.
Defined.

(** X8.  [handle_message] does no input or output of its own: it leaves
    stdin and stdout as they were, whether it returns or raises. *)
Theorem handle_message_does_no_io (P : Type) (env : Env) (message : json)
        (w : Process P) :
  stdin (snd (handle_message env message w)) = stdin w
  /\ stdout (snd (handle_message env message w)) = stdout w.
Proof. apply (handle_message_state P env message w). Qed.

(** X9.  A request whose [action] is [test-connection] always succeeds,
    whatever its [data] is and whatever the host object holds: the answer
    reports the flag [PYKEEPASS_AVAILABLE] and the message that goes with
    it. *)
Theorem test_connection_answer (P : Type) (env : Env) (m : list (pystr * json))
        (w : Process P) :
  dict_lookup m (lit "action") = Some (JStr (lit "test-connection")) ->
  fst (handle_message env (JDict m) w)
  = Return
      (JDict [(lit "id", dict_get m (lit "id") JNull);
              (lit "action", JStr (lit "test-connection"));
              (lit "success", JBool true);
              (lit "data",
               JDict [(lit "connected", JBool (PYKEEPASS_AVAILABLE env));
                      (lit "message",
                       JStr (if PYKEEPASS_AVAILABLE env
                             then lit "Connection test successful"
                             else lit "PyKeePass not available"))])]).
Proof.
  intros Ha.
  assert (Ha' : dict_get m (lit "action") JNull = JStr (lit "test-connection")).
  { unfold dict_get. now rewrite Ha. }
  rewrite handle_message_fst, Ha'. unfold route. cbn [eq_str].
  change (pystr_eqb (lit "test-connection") (lit "test-connection")) with true.
  reflexivity.
Qed.

(** [test_connection_answer] at a request whose [data] is a number. *)
Lemma test_connection_answer_witness :
  dict_lookup [(lit "id", JStr (lit "abc123"));
               (lit "action", JStr (lit "test-connection"));
               (lit "data", JInt 7)] (lit "action")
  = Some (JStr (lit "test-connection"))
  /\ fst (handle_message (sample_env false) (request "test-connection" (JInt 7))
            (start unit []))
     = Return
         (JDict [(lit "id", JStr (lit "abc123"));
                 (lit "action", JStr (lit "test-connection"));
                 (lit "success", JBool true);
                 (lit "data",
                  JDict [(lit "connected", JBool false);
                         (lit "message", JStr (lit "PyKeePass not available"))])]).
Proof.
  split; [reflexivity|].
  apply (test_connection_answer unit (sample_env false)
           [(lit "id", JStr (lit "abc123"));
            (lit "action", JStr (lit "test-connection"));
            (lit "data", JInt 7)] (start unit [])).
  reflexivity.
Defined.

(** X10.  A request whose [action] is [get-status] always succeeds.  The
    [databaseName] of the answer is what follows the last slash of the
    path the host object holds: it contains no slash, and the directory
    part of the path is not disclosed.  It is empty when no path is
    held. *)
Theorem get_status_names_no_directory (P : Type) (env : Env)
        (m : list (pystr * json)) (w : Process P) :
  dict_lookup m (lit "action") = Some (JStr (lit "get-status")) ->
  exists name,
    fst (handle_message env (JDict m) w)
    = Return
        (JDict [(lit "id", dict_get m (lit "id") JNull);
                (lit "action", JStr (lit "get-status"));
                (lit "success", JBool true);
                (lit "data",
                 JDict [(lit "isOpen", JBool (loaded (self w)));
                        (lit "isDatabaseLoaded", JBool (loaded (self w)));
                        (lit "databaseName", JStr name)])])
    /\ existsb (N.eqb 47) name = false
    /\ match database_path (self w) with
       | Some path =>
           exists dir,
             path = dir ++ name /\ (dir = [] \/ exists d, dir = d ++ [47%N])
       | None => name = []
       end.
Proof.
  intros Ha.
  assert (Ha' : dict_get m (lit "action") JNull = JStr (lit "get-status")).
  { unfold dict_get. now rewrite Ha. }
  exists (match database_path (self w) with
          | Some (c :: p) => basename (c :: p)
          | _ => []
          end).
  split; [|split].
  - rewrite handle_message_fst, Ha'. unfold route. cbn [eq_str].
    change (pystr_eqb (lit "get-status") (lit "test-connection")) with false.
    change (pystr_eqb (lit "get-status") (lit "get-credentials")) with false.
    change (pystr_eqb (lit "get-status") (lit "get-status")) with true.
    reflexivity.
  - destruct (database_path (self w)) as [[|c p]|]; try reflexivity.
    apply basename_no_slash.
  - destruct (database_path (self w)) as [[|c p]|]; [| |reflexivity].
    + exists []. split; [reflexivity | now left].
    + apply basename_suffix.
Qed.

(** [get_status_names_no_directory] at a host object that holds the path
    [/home/user/passwords.kdbx]. *)
Lemma get_status_names_no_directory_witness :
  dict_lookup [(lit "id", JStr (lit "abc123"));
               (lit "action", JStr (lit "get-status"));
               (lit "data", JDict [])] (lit "action")
  = Some (JStr (lit "get-status"))
  /\ exists name,
       fst (handle_message (sample_env true) (request "get-status" (JDict []))
              (with_host (start unit []) (open_host "/home/user/passwords.kdbx")))
       = Return
           (JDict [(lit "id", JStr (lit "abc123"));
                   (lit "action", JStr (lit "get-status"));
                   (lit "success", JBool true);
                   (lit "data",
                    JDict [(lit "isOpen", JBool true);
                           (lit "isDatabaseLoaded", JBool true);
                           (lit "databaseName", JStr name)])])
       /\ existsb (N.eqb 47) name = false
       /\ exists dir,
            lit "/home/user/passwords.kdbx" = dir ++ name
            /\ (dir = [] \/ exists d, dir = d ++ [47%N]).
Proof.
  split; [reflexivity|].
  apply (get_status_names_no_directory unit (sample_env true)
           [(lit "id", JStr (lit "abc123"));
            (lit "action", JStr (lit "get-status"));
            (lit "data", JDict [])]
           (with_host (start unit []) (open_host "/home/user/passwords.kdbx"))).
  reflexivity.
Defined.

(** X11.  When the backend capability is available and the [data] mapping
    of a [get-credentials] request holds a truthy [domain], the request
    succeeds with an empty list of credentials, whatever the domain is and
    whatever the host object holds: the handler returns no credential. *)
Theorem get_credentials_returns_none (P : Type) (env : Env)
        (m d : list (pystr * json)) (w : Process P) (h : KeePassHost P) :
  dict_lookup m (lit "action") = Some (JStr (lit "get-credentials")) ->
  PYKEEPASS_AVAILABLE env = true ->
  dict_get m (lit "data") (JDict []) = JDict d ->
  truthy (dict_get d (lit "domain") (JStr [])) = true ->
  fst (handle_message env (JDict m) (with_host w h))
  = Return
      (JDict [(lit "id", dict_get m (lit "id") JNull);
              (lit "action", JStr (lit "get-credentials"));
              (lit "success", JBool true);
              (lit "data", JDict [(lit "credentials", JList [])])]).
Proof.
  intros Ha Hav Hd Ht.
  assert (Ha' : dict_get m (lit "action") JNull = JStr (lit "get-credentials")).
  { unfold dict_get. now rewrite Ha. }
  rewrite handle_message_fst, Ha', Hd. unfold route. cbn [eq_str].
  change (pystr_eqb (lit "get-credentials") (lit "test-connection")) with false.
  change (pystr_eqb (lit "get-credentials") (lit "get-credentials")) with true.
  cbv iota. unfold handle_get_credentials. rewrite Hav. cbn [negb].
  unfold bind. rewrite py_get_dict, Ht. cbn [negb]. rewrite log_eq.
  reflexivity.
Qed.

(** [get_credentials_returns_none] at the domain [example.com], on a host
    object that holds a database. *)
Lemma get_credentials_returns_none_witness :
  dict_lookup [(lit "id", JStr (lit "abc123"));
               (lit "action", JStr (lit "get-credentials"));
               (lit "data", JDict [(lit "domain", JStr (lit "example.com"))])]
    (lit "action")
  = Some (JStr (lit "get-credentials"))
  /\ PYKEEPASS_AVAILABLE (sample_env true) = true
  /\ dict_get [(lit "id", JStr (lit "abc123"));
               (lit "action", JStr (lit "get-credentials"));
               (lit "data", JDict [(lit "domain", JStr (lit "example.com"))])]
       (lit "data") (JDict [])
     = JDict [(lit "domain", JStr (lit "example.com"))]
  /\ truthy (dict_get [(lit "domain", JStr (lit "example.com"))] (lit "domain")
               (JStr [])) = true
  /\ fst (handle_message (sample_env true)
            (request "get-credentials"
               (JDict [(lit "domain", JStr (lit "example.com"))]))
            (with_host (start unit []) (open_host "/home/user/passwords.kdbx")))
     = Return
         (JDict [(lit "id", JStr (lit "abc123"));
                 (lit "action", JStr (lit "get-credentials"));
                 (lit "success", JBool true);
                 (lit "data", JDict [(lit "credentials", JList [])])]).
Proof.
  split; [reflexivity|]. split; [reflexivity|]. split; [reflexivity|].
  split; [reflexivity|].
  apply (get_credentials_returns_none unit (sample_env true)
           [(lit "id", JStr (lit "abc123"));
            (lit "action", JStr (lit "get-credentials"));
            (lit "data", JDict [(lit "domain", JStr (lit "example.com"))])]
           [(lit "domain", JStr (lit "example.com"))]
           (start unit []) (open_host "/home/user/passwords.kdbx"));
    reflexivity.
Defined.

(** X12.  A [get-credentials] request whose [data] is not a mapping is
    answered with [success: false].  With the backend capability available
    the error is the text of the [AttributeError] that [data.get] raises,
    which names the type of [data]; without it the error is the unavailable
    error, the capability being checked first. *)
Theorem get_credentials_data_not_a_mapping (P : Type) (env : Env)
        (m : list (pystr * json)) (w : Process P) :
  dict_lookup m (lit "action") = Some (JStr (lit "get-credentials")) ->
  (forall d, dict_get m (lit "data") (JDict []) <> JDict d) ->
  fst (handle_message env (JDict m) w)
  = Return
      (JDict [(lit "id", dict_get m (lit "id") JNull);
              (lit "action", JStr (lit "get-credentials"));
              (lit "success", JBool false);
              (lit "error",
               JStr (if PYKEEPASS_AVAILABLE env
                     then lit "'" ++ type_name (dict_get m (lit "data") (JDict []))
                          ++ lit "' object has no attribute 'get'"
                     else lit "PyKeePass not available"))]).
Proof.
  intros Ha Hd.
  assert (Ha' : dict_get m (lit "action") JNull = JStr (lit "get-credentials")).
  { unfold dict_get. now rewrite Ha. }
  rewrite handle_message_fst, Ha'. unfold route. cbn [eq_str].
  change (pystr_eqb (lit "get-credentials") (lit "test-connection")) with false.
  change (pystr_eqb (lit "get-credentials") (lit "get-credentials")) with true.
  cbv iota. unfold handle_get_credentials.
  destruct (PYKEEPASS_AVAILABLE env); cbn [negb]; [|reflexivity].
  unfold bind.
  destruct (dict_get m (lit "data") (JDict [])) as [|b|z|f|s|l|d];
    try reflexivity.
  now contradiction (Hd d).
Qed.

(** [get_credentials_data_not_a_mapping] at a request whose [data] is a
    list. *)
Lemma get_credentials_data_not_a_mapping_witness :
  dict_lookup [(lit "id", JStr (lit "abc123"));
               (lit "action", JStr (lit "get-credentials"));
               (lit "data", JList [JStr (lit "example.com")])] (lit "action")
  = Some (JStr (lit "get-credentials"))
  /\ (forall d,
        dict_get [(lit "id", JStr (lit "abc123"));
                  (lit "action", JStr (lit "get-credentials"));
                  (lit "data", JList [JStr (lit "example.com")])]
          (lit "data") (JDict []) <> JDict d)
  /\ fst (handle_message (sample_env true)
            (request "get-credentials" (JList [JStr (lit "example.com")]))
            (start unit []))
     = Return
         (JDict [(lit "id", JStr (lit "abc123"));
                 (lit "action", JStr (lit "get-credentials"));
                 (lit "success", JBool false);
                 (lit "error", JStr (lit "'list' object has no attribute 'get'"))]).
Proof.
  split; [reflexivity|]. split; [intros d; discriminate|].
  apply (get_credentials_data_not_a_mapping unit (sample_env true)
           [(lit "id", JStr (lit "abc123"));
            (lit "action", JStr (lit "get-credentials"));
            (lit "data", JList [JStr (lit "example.com")])] (start unit []));
    [reflexivity | intros d; discriminate].
Defined.

(** X13.  A request whose [action] is not a string (a number, a list,
    [null], or no [action] at all) is answered with [success: false] and
    the error ["Unknown action: "] followed by the [str] of that value:
    [None] when the field is missing. *)
Theorem non_string_action_is_unknown (P : Type) (env : Env)
        (m : list (pystr * json)) (w : Process P) :
  (forall s, dict_get m (lit "action") JNull <> JStr s) ->
  fst (handle_message env (JDict m) w)
  = Return
      (JDict [(lit "id", dict_get m (lit "id") JNull);
              (lit "action", dict_get m (lit "action") JNull);
              (lit "success", JBool false);
              (lit "error",
               JStr (lit "Unknown action: "
                     ++ fmt env (dict_get m (lit "action") JNull)))]).
Proof.
  intros Ha. rewrite handle_message_fst. unfold route.
  destruct (dict_get m (lit "action") JNull) as [|b|z|f|s|l|d];
    try reflexivity.
  now contradiction (Ha s).
Qed.

(** [non_string_action_is_unknown] at the request [{"id": 5}]. *)
Lemma non_string_action_is_unknown_witness :
  (forall s, dict_get [(lit "id", JInt 5)] (lit "action") JNull <> JStr s)
  /\ fst (handle_message (sample_env true) (JDict [(lit "id", JInt 5)])
            (start unit []))
     = Return
         (JDict [(lit "id", JInt 5);
                 (lit "action", JNull);
                 (lit "success", JBool false);
                 (lit "error", JStr (lit "Unknown action: None"))]).
Proof.
  split; [intros s; discriminate|].
  apply (non_string_action_is_unknown unit (sample_env true)
           [(lit "id", JInt 5)] (start unit [])).
  intros s; discriminate.
Defined.

(** X14.  Every response the host gives to a well-formed request whose
    [action] is a scalar is itself a well-formed document: serialized by
    [json.dumps], it reads back by [json.loads] as the very response. *)
Theorem response_is_well_formed (P : Type) (env : Env) (m : list (pystr * json))
        (w : Process P) :
  valid (JDict m) = true ->
  scalar (dict_get m (lit "action") JNull) = true ->
  path_ok (self w) = true ->
  exists response,
    fst (handle_message env (JDict m) w) = Return response
    /\ valid response = true
    /\ Json.loads (json_dumps env response) = Some response.
Proof.
  intros Hm Hs Hp.
  pose proof (valid_dict_get m (lit "id") JNull Hm eq_refl) as Hid.
  pose proof (valid_dict_get m (lit "action") JNull Hm eq_refl) as Hact.
  pose proof (route_valid P env (dict_get m (lit "action") JNull)
                (dict_get m (lit "data") (JDict [])) w Hs Hact Hp) as Hr.
  eexists. split; [apply handle_message_fst|].
  assert (Hv : valid
                 match fst (route env (dict_get m (lit "action") JNull)
                              (dict_get m (lit "data") (JDict [])) w) with
                 | Return result =>
                     success_response (dict_get m (lit "id") JNull)
                       (dict_get m (lit "action") JNull) result
                 | Raise e =>
                     error_response env (dict_get m (lit "id") JNull)
                       (dict_get m (lit "action") JNull) e
                 end = true).
  { destruct (fst (route env _ _ w)) as [result|e].
    - now apply valid_success_response.
    - now apply valid_error_response. }
  split; [exact Hv|]. now apply loads_dumps.
Qed.

(** [response_is_well_formed] at a [get-status] request. *)
Lemma response_is_well_formed_witness :
  valid (request "get-status" (JDict [])) = true
  /\ scalar (dict_get [(lit "id", JStr (lit "abc123"));
                       (lit "action", JStr (lit "get-status"));
                       (lit "data", JDict [])] (lit "action") JNull) = true
  /\ path_ok (self (start unit [])) = true
  /\ exists response,
       fst (handle_message (sample_env true) (request "get-status" (JDict []))
              (start unit [])) = Return response
       /\ valid response = true
       /\ Json.loads (json_dumps (sample_env true) response) = Some response.
Proof.
  split; [reflexivity|]. split; [reflexivity|]. split; [reflexivity|].
  apply (response_is_well_formed unit (sample_env true)
           [(lit "id", JStr (lit "abc123"));
            (lit "action", JStr (lit "get-status"));
            (lit "data", JDict [])] (start unit []));
    reflexivity.
Defined.

(* ------------------------------------------------------------------ *)
(** ** Further properties of whole sessions *)

(** X15.  From its first statement to its last, [run] keeps the host
    object as it was, only appends to stdout and only takes bytes from the
    front of stdin. *)
Theorem run_keeps_host_and_streams (P : Type) (env : Env) (fuel : nat)
        (w : Process P) :
  self (snd (run env fuel w)) = self w
  /\ (exists written, stdout (snd (run env fuel w)) = stdout w ++ written)
  /\ (exists taken, stdin w = taken ++ stdin (snd (run env fuel w))).
Proof.
  destruct (run_follows P env fuel w) as (H1 & H2 & H3 & _).
  now repeat split.
Qed.



(** X17.  A complete frame whose payload is anything but a JSON object
    (an empty payload, bytes that are not UTF-8, a text that is not JSON,
    [null], a list, a number, a string) ends the session: [run] returns,
    nothing is written for it, and what follows the frame on stdin is left
    unread. *)
Theorem non_mapping_frame_ends_session (P : Type) (env : Env) (w : Process P)
        (prefix payload rest : bytes) (n : N) (fuel : nat) :
  stdin w = prefix ++ payload ++ rest ->
  Struct.unpack (native_byteorder env) prefix = Some n ->
  length payload = N.to_nat n ->
  (forall m, document_of payload <> JDict m) ->
  fst (run env (S fuel) w) = Return true
  /\ stdout (snd (run env (S fuel) w)) = stdout w
  /\ stdin (snd (run env (S fuel) w)) = rest.
Proof.
  intros Hin Hu Hl Hdoc. rewrite run_eq. cbv zeta.
  destruct (log_run P env (lit "KeePass native messaging host started") Info w)
    as (_ & _ & Hi0 & Ho0).
  set (w0 := snd (log env _ Info w)) in *.
  rewrite while_true_step, loop_body_eq. cbv zeta.
  destruct (read_message_run P env w0) as (_ & _ & Ho1 & Hi1).
  destruct (read_complete_frame (native_byteorder env) prefix payload rest n Hu Hl)
    as (Hv & Hrest).
  rewrite Hi0, Hin in Hi1 |- *. rewrite Hrest in Hi1. rewrite Hv.
  set (w1 := snd (read_message env w0)) in *.
  assert (Hstop : forall w2 : Process P,
             stdout w2 = stdout w1 -> stdin w2 = stdin w1 ->
             stdout (snd (log env (lit "KeePass native messaging host stopped")
                            Info w2)) = stdout w
             /\ stdin (snd (log env (lit "KeePass native messaging host stopped")
                              Info w2)) = rest).
  { intros w2 Ho2 Hi2.
    destruct (log_run P env (lit "KeePass native messaging host stopped") Info w2)
      as (_ & _ & Hi3 & Ho3).
    split; congruence. }
  destruct (document_of payload) as [|b|z|f|s|l|m] eqn:Ed; cbn [is_None];
    try (now contradiction (Hdoc m));
    try (match goal with
         | |- context [handle_message env ?msg w1] =>
             destruct (handle_message_non_dict P env msg w1) as (e & ->);
             [discriminate|]
         end;
         cbn [fst snd]; split; [reflexivity|];
         destruct (log_run P env (lit "Fatal error: " ++ exn_str env e) Error w1)
           as (_ & _ & Hi2 & Ho2);
         now apply Hstop).
  cbn [fst snd]. split; [reflexivity|]. now apply Hstop.
Qed.

(** [non_mapping_frame_ends_session] at a frame with an empty payload
    followed by the frame of a [get-status] request. *)
Lemma non_mapping_frame_ends_session_witness :
  stdin (start unit (le_bytes 0
                     ++ frame_bytes (json_text "{'id': 1, 'action': 'get-status'}")))
  = le_bytes 0 ++ []
    ++ frame_bytes (json_text "{'id': 1, 'action': 'get-status'}")
  /\ Struct.unpack (native_byteorder (sample_env true)) (le_bytes 0) = Some 0%N
  /\ length (@nil byte) = N.to_nat 0
  /\ (forall m, document_of [] <> JDict m)
  /\ fst (run (sample_env true) 1
            (start unit (le_bytes 0
                         ++ frame_bytes
                              (json_text "{'id': 1, 'action': 'get-status'}"))))
     = Return true
  /\ stdout (snd (run (sample_env true) 1
                    (start unit (le_bytes 0
                                 ++ frame_bytes
                                      (json_text "{'id': 1, 'action': 'get-status'}")))))
     = []
  /\ stdin (snd (run (sample_env true) 1
                   (start unit (le_bytes 0
                                ++ frame_bytes
                                     (json_text "{'id': 1, 'action': 'get-status'}")))))
     = frame_bytes (json_text "{'id': 1, 'action': 'get-status'}").
Proof.
  split; [reflexivity|]. split; [reflexivity|]. split; [reflexivity|].
  split; [intros m; discriminate|].
  apply (non_mapping_frame_ends_session unit (sample_env true)
           (start unit (le_bytes 0
                        ++ frame_bytes
                             (json_text "{'id': 1, 'action': 'get-status'}")))
           (le_bytes 0) []
           (frame_bytes (json_text "{'id': 1, 'action': 'get-status'}")) 0%N 0);
    [reflexivity | reflexivity | reflexivity | intros m; discriminate].
Defined.

(** X18.  With [LOG_ENABLED] off, a whole run hands nothing to [logging]:
    the log is after [run] what it was before. *)
Theorem no_log_when_disabled (P : Type) (env : Env) (fuel : nat) (w : Process P) :
  LOG_ENABLED env = false ->
  logfile (snd (run env fuel w)) = logfile w.
Proof.
  intros Hoff.
  destruct (run_follows P env fuel w) as (_ & _ & _ & (records & Hlog & Hnone)).
  rewrite Hlog, (Hnone Hoff). apply List.app_nil_r.
Qed.

(** [no_log_when_disabled] at a session of one request. *)
Lemma no_log_when_disabled_witness :
  LOG_ENABLED (sample_env true) = false
  /\ logfile (snd (run (sample_env true) 5
                     (start unit
                        (frame_bytes (json_text "{'id': 1, 'action': 'get-status'}")))))
     = logfile (start unit
                  (frame_bytes (json_text "{'id': 1, 'action': 'get-status'}"))).
Proof.
  split; [reflexivity|].
  apply (no_log_when_disabled unit (sample_env true) 5
           (start unit (frame_bytes (json_text "{'id': 1, 'action': 'get-status'}")))).
  reflexivity.
Defined.

(** X19.  With [LOG_ENABLED] on, the records of a run begin with the
    [started] record and end with the [stopped] record, also when the loop
    is left by an exception: the [finally] clause always runs.  Records
    already in the log are kept. *)
Theorem session_log_brackets (P : Type) (env : Env) (fuel : nat) (w : Process P) :
  LOG_ENABLED env = true ->
  exists records,
    logfile (snd (run env fuel w))
    = logfile w
      ++ (Info, lit "KeePass native messaging host started") :: records
      ++ [(Info, lit "KeePass native messaging host stopped")].
Proof.
  intros Hon. rewrite run_eq. cbv zeta.
  pose proof (log_enabled P env (lit "KeePass native messaging host started")
                Info w Hon) as H0.
  set (w0 := snd (log env _ Info w)) in *.
  destruct (while_true_follows P env fuel w0) as (_ & _ & _ & (r & Hr & _)).
  destruct (while_true env fuel w0) as [[b|e] w1]; cbn [snd] in *.
  - exists r. rewrite (log_enabled P env _ Info w1 Hon), Hr, H0.
    now rewrite <- !List.app_assoc.
  - exists (r ++ [(Error, lit "Fatal error: " ++ exn_str env e)]).
    rewrite (log_enabled P env _ Info _ Hon), (log_enabled P env _ Error w1 Hon).
    rewrite Hr, H0. now rewrite <- !List.app_assoc.
Qed.

(** [session_log_brackets] at a session whose only frame holds a list, on
    which [handle_message] raises. *)
Lemma session_log_brackets_witness :
  LOG_ENABLED (debug_env true) = true
  /\ exists records,
       logfile (snd (run (debug_env true) 5 (start unit (frame_bytes (lit "[]")))))
       = logfile (start unit (frame_bytes (lit "[]")))
         ++ (Info, lit "KeePass native messaging host started") :: records
         ++ [(Info, lit "KeePass native messaging host stopped")].
Proof.
  split; [reflexivity|].
  apply (session_log_brackets unit (debug_env true) 5
           (start unit (frame_bytes (lit "[]")))).
  reflexivity.
Defined.

(* ------------------------------------------------------------------ *)
(** ** The model on a few concrete texts *)

Example dumps_sample_response :
  json_dumps (sample_env true) sample_response
  = json_text "{'id': 'abc123', 'action': 'get-status', 'success': true, 'data': {'isOpen': false, 'isDatabaseLoaded': false, 'databaseName': ''}}".
Proof. reflexivity. Qed.

Example dumps_escapes :
  json_dumps (sample_env true) (JStr [34; 92; 10; 233; 0x1F600]%N)
  = json_text "'\'\\\n\u00e9\ud83d\ude00'".
Proof. reflexivity. Qed.

Example loads_whitespace_and_escapes :
  loads (json_text " { 'a' : [ 1 , -20, true, null, '\u00e9\/\t' ] , 'a' : {} , 'b' : 0 } ")
  = Some (JDict [(lit "a", JDict []); (lit "b", JInt 0)]).
Proof. reflexivity. Qed.

Example loads_rejects :
  map loads [lit ""; lit "[1,]"; lit "01"; lit "{'a': 1}"; lit "[1] x";
             json_text "'\x41'"; json_text "{'a' 1}"; lit "nul"; lit "-"]
  = [None; None; None; None; None; None; None; None; None].
Proof. reflexivity. Qed.

Example decode_rejects :
  map Utf8.decode [[xc0; x80]; [xed; xa0; x80]; [xf4; x90; x80; x80]; [xe2; x82]; [xff]]
  = [None; None; None; None; None]
  /\ Utf8.decode [xe2; x82; xac; x41] = Some [0x20AC; 0x41]%N.
Proof. split; reflexivity. Qed.

Example unknown_action_text :
  fst (handle_message (sample_env true)
         (JDict [(lit "action", JList [JStr (lit "a"); JInt 1; JNull])])
         (start unit []))
  = Return
      (JDict [(lit "id", JNull);
              (lit "action", JList [JStr (lit "a"); JInt 1; JNull]);
              (lit "success", JBool false);
              (lit "error", JStr (lit "Unknown action: ['a', 1, None]"))]).
Proof. reflexivity. Qed.

Example get_credentials_on_non_mapping_data :
  fst (handle_message (sample_env true) (request "get-credentials" (JInt 7))
         (start unit []))
  = Return
      (JDict [(lit "id", JStr (lit "abc123"));
              (lit "action", JStr (lit "get-credentials"));
              (lit "success", JBool false);
              (lit "error", JStr (lit "'int' object has no attribute 'get'"))]).
Proof. reflexivity. Qed.

Example session_of_two_requests :
  stdout (snd (run (sample_env true) 200
                 (start unit
                    (frame_bytes (json_text "{'id': 1, 'action': 'test-connection'}")
                     ++ frame_bytes (json_text "{'id': 2, 'action': 'nope'}")))))
  = frame_bytes (json_text "{'id': 1, 'action': 'test-connection', 'success': true, 'data': {'connected': true, 'message': 'Connection test successful'}}")
    ++ frame_bytes (json_text "{'id': 2, 'action': 'nope', 'success': false, 'error': 'Unknown action: nope'}").
Proof. vm_compute. reflexivity. Qed.
